(** * Sociology paper analyzer: the pattern-matching and scoring engine

    A shallow embedding of [src/sociology_paper_analyzer.py] and the
    properties of its specification.

    Texts are values of [string]: sequences of 8-bit characters, read as the
    Unicode code points U+0000..U+00FF of a Python [str].  On that range
    [str.lower], [str.isspace] and the classes [\w], [\s], [\d] of the [re]
    module are written out below as Python defines them.  Counts are [nat]
    (every count of the program is a [len]).  Python dictionaries are
    association lists in insertion order, which is the order [dict.items],
    [max] and [sorted] observe. *)

From Stdlib Require Import String Ascii List Bool Arith NArith ZArith QArith Lia.
From Stdlib Require Import Sorted Permutation.
Import ListNotations.
Local Open Scope string_scope.
Local Open Scope nat_scope.
Local Open Scope list_scope.

Set Implicit Arguments.

(** ** Characters *)

Module Char.

Definition code (c : ascii) : N := N_of_ascii c.

Definition between (lo hi : N) (c : ascii) : bool :=
  (lo <=? code c)%N && (code c <=? hi)%N.

Definition is_ascii_upper : ascii -> bool := between 65 90.
Definition is_ascii_lower : ascii -> bool := between 97 122.
Definition is_ascii_digit : ascii -> bool := between 48 57.

(** [str.lower] on one character: [A-Z] and the Latin-1 capitals
    U+00C0..U+00DE (but not the multiplication sign U+00D7) move up by 32. *)
Definition lower (c : ascii) : ascii :=
  if is_ascii_upper c || (between 192 222 c && negb (code c =? 215)%N)
  then ascii_of_N (code c + 32) else c.

(** The inverse direction, where the capital is again in U+0000..U+00FF;
    only used to read a character class under [re.IGNORECASE]. *)
Definition upper (c : ascii) : ascii :=
  if is_ascii_lower c || (between 224 254 c && negb (code c =? 247)%N)
  then ascii_of_N (code c - 32) else c.

(** [str.isspace], which is also the class [\s] of a [str] pattern. *)
Definition is_space (c : ascii) : bool :=
  between 9 13 c || between 28 32 c || (code c =? 133)%N || (code c =? 160)%N.

(** [str.isalnum] restricted to U+0000..U+00FF: letters, decimal digits,
    and the Latin-1 characters with a numeric value or letter category. *)
Definition is_alnum (c : ascii) : bool :=
  is_ascii_digit c || is_ascii_upper c || is_ascii_lower c
  || (code c =? 170)%N || (code c =? 178)%N || (code c =? 179)%N
  || (code c =? 181)%N || (code c =? 185)%N || (code c =? 186)%N
  || between 188 190 c
  || between 192 214 c || between 216 246 c || between 248 255 c.

(** The class [\w] of a [str] pattern: alphanumeric or underscore. *)
Definition is_word (c : ascii) : bool := is_alnum c || (code c =? 95)%N.

(** The class [\d] of a [str] pattern; the only decimal digits below
    U+0100 are [0-9]. *)
Definition is_digit : ascii -> bool := is_ascii_digit.

End Char.

(** ** Strings *)

(** [str.lower] *)
Fixpoint lower (s : string) : string :=
  match s with
  | EmptyString => EmptyString
  | String c s' => String (Char.lower c) (lower s')
  end.

(** [s[:n]] *)
Fixpoint take (n : nat) (s : string) : string :=
  match n, s with
  | S n', String c s' => String c (take n' s')
  | _, _ => EmptyString
  end.

(** ** Regular expressions

    The fragment of Python's [re] syntax the analyzer uses, with the
    backtracking semantics of the [re] engine: alternatives are tried left
    to right, repetition is greedy, and the first successful path wins. *)

Module Re.

Inductive regex : Type :=
| Eps : regex                          (* the empty pattern *)
| Cls : (ascii -> bool) -> regex       (* one character of a class *)
| Seq : regex -> regex -> regex        (* r1 r2 *)
| Alt : regex -> regex -> regex        (* r1|r2 *)
| Star : regex -> regex                (* r*, greedy *)
| Bound : regex.                       (* \b *)

Definition chr (c : ascii) : regex := Cls (Ascii.eqb c).
Definition plus (r : regex) : regex := Seq r (Star r).       (* r+ *)
Definition opt (r : regex) : regex := Alt r Eps.              (* r? *)

Fixpoint rep (n : nat) (r : regex) : regex :=                 (* r{n} *)
  match n with
  | O => Eps
  | S n' => Seq r (rep n' r)
  end.

Definition at_least (n : nat) (r : regex) : regex :=          (* r{n,} *)
  Seq (rep n r) (Star r).

Fixpoint seq (rs : list regex) : regex :=
  match rs with
  | [] => Eps
  | [r] => r
  | r :: rs' => Seq r (seq rs')
  end.

(** A literal string: what [re.escape] makes of a keyword. *)
Fixpoint escape (s : string) : regex :=
  match s with
  | EmptyString => Eps
  | String c s' => Seq (chr c) (escape s')
  end.

(** A pattern compiled with [re.IGNORECASE]: a class accepts a character
    as soon as it accepts one of its case variants. *)
Fixpoint ignorecase (r : regex) : regex :=
  match r with
  | Eps => Eps
  | Cls p => Cls (fun c => p c || p (Char.lower c) || p (Char.upper c))
  | Seq r1 r2 => Seq (ignorecase r1) (ignorecase r2)
  | Alt r1 r2 => Alt (ignorecase r1) (ignorecase r2)
  | Star r' => Star (ignorecase r')
  | Bound => Bound
  end.

Definition space : regex := Cls Char.is_space.                (* \s *)
Definition digit : regex := Cls Char.is_digit.                (* \d *)
Definition upper_az : regex := Cls Char.is_ascii_upper.       (* [A-Z] *)
Definition lower_az : regex := Cls Char.is_ascii_lower.       (* [a-z] *)

(** A position of the subject is the character before it ([None] at the
    start) and the text that remains. *)
Definition word_before (prev : option ascii) : bool :=
  match prev with
  | Some c => Char.is_word c
  | None => false
  end.

Definition word_after (s : string) : bool :=
  match s with
  | String c _ => Char.is_word c
  | EmptyString => false
  end.

(** [\b]: exactly one side of the position is a word character. *)
Definition at_boundary (prev : option ascii) (s : string) : bool :=
  xorb (word_before prev) (word_after s).

Definition cont : Type := option ascii -> string -> option string.

(** The greedy loop of [r*]: try one more iteration of [body], which has
    to consume a character, and fall back to the continuation [k]. *)
Fixpoint star_loop (body : option ascii -> string -> cont -> option string)
  (k : cont) (n : nat) (prev : option ascii) (s : string) : option string :=
  match n with
  | O => k prev s
  | S n' =>
      match body prev s
              (fun prev' s' =>
                 if String.length s' <? String.length s
                 then star_loop body k n' prev' s' else None) with
      | Some rest => Some rest
      | None => k prev s
      end
  end.

(** [run r prev s k]: match [r] at position [(prev, s)] and hand the
    position after it to [k]; the answer is the text left after the whole
    match, or [None] when every path fails.  The loop of [Star] is bounded
    by the length of the remaining text, which is enough (lemma
    [star_loop_enough] below). *)
Fixpoint run (r : regex) (prev : option ascii) (s : string) (k : cont)
  : option string :=
  match r with
  | Eps => k prev s
  | Cls p =>
      match s with
      | String c s' => if p c then k (Some c) s' else None
      | EmptyString => None
      end
  | Seq r1 r2 => run r1 prev s (fun prev' s' => run r2 prev' s' k)
  | Alt r1 r2 =>
      match run r1 prev s k with
      | Some rest => Some rest
      | None => run r2 prev s k
      end
  | Star r' => star_loop (run r') k (String.length s) prev s
  | Bound => if at_boundary prev s then k prev s else None
  end.

(** The match of [r] that starts at this position, if there is one. *)
Definition match_here (r : regex) (prev : option ascii) (s : string)
  : option string :=
  match run r prev s (fun _ rest => Some rest) with
  | Some rest => Some (take (String.length s - String.length rest) s)
  | None => None
  end.

(** [re.findall(r, s)] for a pattern without groups: the matches found in
    a scan from left to right, none overlapping another.  [skip] counts
    the characters still covered by the last match.  (Every pattern of the
    analyzer consumes at least one character; after an empty match the
    scan moves on by one character.) *)
Fixpoint findall_from (r : regex) (prev : option ascii) (s : string)
  (skip : nat) : list string :=
  match s with
  | EmptyString =>
      match skip, match_here r prev s with
      | O, Some m => [m]
      | _, _ => []
      end
  | String c s' =>
      match skip with
      | S skip' => findall_from r (Some c) s' skip'
      | O =>
          match match_here r prev s with
          | Some m => m :: findall_from r (Some c) s' (String.length m - 1)
          | None => findall_from r (Some c) s' 0
          end
      end
  end.

Definition findall (r : regex) (s : string) : list string :=
  findall_from r None s 0.

End Re.

(** ** The matcher

    The expression [len(re.findall(r'\b' + re.escape(keyword) + r'\b',
    text_lower))], which [detect_methodology], [identify_theories] and
    [extract_concepts] all evaluate. *)

Definition keyword_pattern (keyword : string) : Re.regex :=
  Re.Seq Re.Bound (Re.Seq (Re.escape keyword) Re.Bound).

Definition keyword_count (text_lower keyword : string) : nat :=
  List.length (Re.findall (keyword_pattern keyword) text_lower).

(** The matcher as the callers use it: on the lower-cased text. *)
Definition count (text keyword : string) : nat :=
  keyword_count (lower text) keyword.


(** ** Dictionaries and sorting *)

Section Dict.
Variable V : Type.

(** A [dict] with string keys, as the list of its items in insertion
    order. *)
Definition dict : Type := list (string * V).

(** [d[k] = v]: an existing key keeps its place, a new key goes last. *)
Fixpoint dict_set (d : dict) (k : string) (v : V) : dict :=
  match d with
  | [] => [(k, v)]
  | (k', v') :: d' =>
      if String.eqb k' k then (k', v) :: d' else (k', v') :: dict_set d' k v
  end.

(** [dict(items)] *)
Definition dict_of_items (items : list (string * V)) : dict :=
  fold_left (fun d kv => dict_set d (fst kv) (snd kv)) items [].

Definition keys (d : dict) : list string := map fst d.
End Dict.

(** [d[k] += n].  Python raises [KeyError] when [k] is absent; the only
    caller updates the keys its dictionary was created with (lemma
    [methodology_keys_present] below), and here an absent key leaves the
    dictionary as it is. *)
Fixpoint dict_iadd (d : dict nat) (k : string) (n : nat) : dict nat :=
  match d with
  | [] => []
  | (k', v) :: d' =>
      if String.eqb k' k then (k', v + n) :: d' else (k', v) :: dict_iadd d' k n
  end.

Section Sorting.
Variable A : Type.
Variable key : A -> nat.

(** [sorted(l, key=key, reverse=True)]: descending by key, and stable,
    so elements with equal keys keep the order they had in [l]. *)
Fixpoint insert_desc (x : A) (l : list A) : list A :=
  match l with
  | [] => [x]
  | y :: l' => if key y <=? key x then x :: y :: l' else y :: insert_desc x l'
  end.

Fixpoint sorted_desc (l : list A) : list A :=
  match l with
  | [] => []
  | x :: l' => insert_desc x (sorted_desc l')
  end.

(** [max(l, key=key)]: the first element whose key is maximal
    ([ValueError], here [None], on an empty sequence). *)
Fixpoint max_by (l : list A) : option A :=
  match l with
  | [] => None
  | x :: l' =>
      match max_by l' with
      | Some y => if key x <? key y then Some y else Some x
      | None => Some x
      end
  end.
End Sorting.

(** [sum(l)] *)
Definition sum (l : list nat) : nat := fold_left Nat.add l 0.

(** ** The taxonomies of [SociologyPaperAnalyzer.__init__] *)

Definition methodologies : dict (list string) :=
  [ ("qualitative",
      [ "ethnography"; "ethnographic"; "interview"; "focus group";
        "case study"; "participant observation"; "grounded theory";
        "narrative analysis"; "discourse analysis"; "content analysis";
        "phenomenology"; "phenomenological"; "autoethnography";
        "life history"; "oral history"; "fieldwork"; "field notes" ]);
    ("quantitative",
      [ "survey"; "questionnaire"; "regression"; "statistical analysis";
        "anova"; "correlation"; "sample size"; "n ="; "p <"; "p-value";
        "significance"; "t-test"; "chi-square"; "factor analysis";
        "logistic regression"; "descriptive statistics";
        "inferential statistics"; "random sample"; "probability sample";
        "statistical significance" ]);
    ("mixed_methods",
      [ "mixed method"; "mixed-method"; "triangulation";
        "sequential design"; "concurrent design"; "convergent design";
        "explanatory sequential"; "exploratory sequential" ]) ].

Definition theories : dict (list string) :=
  [ ("structural_functionalism",
      [ "structural functionalism"; "functionalism"; "functional";
        "parsons"; "merton"; "durkheim"; "social structure";
        "social system"; "equilibrium"; "manifest function";
        "latent function" ]);
    ("conflict_theory",
      [ "conflict theory"; "marx"; "marxist"; "class conflict";
        "power dynamics"; "inequality"; "oppression"; "hegemony";
        "exploitation"; "domination"; "class struggle" ]);
    ("symbolic_interactionism",
      [ "symbolic interaction"; "interactionism"; "goffman"; "blumer";
        "mead"; "dramaturgy"; "impression management"; "self concept";
        "looking glass self"; "significant other"; "generalized other" ]);
    ("feminist_theory",
      [ "feminist"; "feminism"; "patriarchy"; "gender inequality";
        "intersectionality"; "womens studies"; "masculine"; "feminine";
        "gender roles"; "sex and gender"; "gender stratification" ]);
    ("critical_race_theory",
      [ "critical race"; "crt"; "racial formation"; "systemic racism";
        "structural racism"; "racial inequality"; "colorblind";
        "white privilege"; "racialization" ]);
    ("postmodernism",
      [ "postmodern"; "postmodernism"; "foucault"; "derrida";
        "deconstruction"; "discourse"; "power/knowledge";
        "grand narrative"; "metanarrative"; "fragmentation" ]);
    ("rational_choice",
      [ "rational choice"; "rational actor"; "cost-benefit";
        "utility maximization"; "game theory"; "exchange theory";
        "social exchange" ]);
    ("social_constructionism",
      [ "social construction"; "socially constructed"; "berger";
        "luckmann"; "reality construction"; "social reality" ]) ].

Definition concepts : list string :=
  [ "social capital"; "cultural capital"; "habitus"; "field";
    "stigma"; "deviance"; "anomie"; "social solidarity";
    "mechanical solidarity"; "organic solidarity";
    "gemeinschaft"; "gesellschaft"; "social mobility";
    "stratification"; "socialization"; "social control";
    "social institution"; "norms"; "values"; "roles";
    "status"; "achieved status"; "ascribed status";
    "in-group"; "out-group"; "reference group";
    "primary group"; "secondary group"; "bureaucracy";
    "rationalization"; "McDonaldization"; "globalization";
    "urbanization"; "modernization"; "secularization";
    "social movement"; "collective behavior"; "social change" ].

(** ** The scorers *)

Definition detect_methodology (text : string) : dict nat :=
  let text_lower := lower text in
  let methodology_scores :=
    [ ("qualitative", 0); ("quantitative", 0); ("mixed_methods", 0) ] in
  fold_left
    (fun scores '(method_type, keywords) =>
       fold_left
         (fun scores keyword =>
            dict_iadd scores method_type (keyword_count text_lower keyword))
         keywords scores)
    methodologies methodology_scores.


(** ** Sets

    [set(l)] holds the distinct elements of [l]; the order in which
    [list(set(l))] yields them is fixed by the string hashes of the running
    interpreter and is not part of the language.  The analyzer is therefore
    written against an interface: any enumeration of the distinct elements
    is an iteration order. *)

Definition distinct (l : list string) : list string := nodup string_dec l.

Class SetOrder : Type := {
  set_list : list string -> list string;            (* list(set(l)) *)
  set_list_perm : forall l, Permutation (set_list l) (distinct l)
}.

(** [len(set(l))] *)
Definition len_set (l : list string) : nat := List.length (distinct l).

(** The value [{'count': count, 'terms': terms}] stored for a theory is the
    pair [(count, terms)]. *)
Definition identify_theories `{SetOrder} (text : string)
  : dict (nat * list string) :=
  let text_lower := lower text in
  fold_left
    (fun theories_found '(theory_name, keywords) =>
       let '(count, matched_terms) :=
         fold_left
           (fun '(count, matched_terms) keyword =>
              let matches := keyword_count text_lower keyword in
              if 0 <? matches
              then (count + matches, matched_terms ++ [keyword])
              else (count, matched_terms))
           keywords (0, []) in
       if 0 <? count
       then dict_set theories_found theory_name (count, set_list matched_terms)
       else theories_found)
    theories [].

Definition concepts_found (text : string) : dict nat :=
  let text_lower := lower text in
  fold_left
    (fun found concept =>
       let count := keyword_count text_lower concept in
       if 0 <? count then dict_set found concept count else found)
    concepts [].

Definition extract_concepts (text : string) : dict nat :=
  dict_of_items (sorted_desc snd (concepts_found text)).

(** ** Research components *)

Fixpoint alt (rs : list Re.regex) : Re.regex :=
  match rs with
  | [] => Re.Cls (fun _ => false)
  | [r] => r
  | r :: rs' => Re.Alt r (alt rs')
  end.

Definition research_patterns : dict Re.regex :=
  let lit := Re.escape in
  let s := Re.space in
  let d := Re.digit in
  (* n\s*=\s*\d+ *)
  let n_eq := Re.seq [lit "n"; Re.Star s; lit "="; Re.Star s; Re.plus d] in
  [ ("hypothesis",
      alt [lit "hypothesis"; lit "hypotheses"; lit "we hypothesize";
           lit "hypothesized"]);
    ("research_question",
      alt [lit "research question";
           Re.Seq (lit "RQ") (Re.plus d);
           Re.Seq (lit "this study ")
                  (alt [lit "asks"; lit "examines"; lit "investigates"])]);
    ("sample",
      alt [lit "sample size";
           n_eq;
           Re.seq [lit "participant"; Re.opt (lit "s"); Re.Star s;
                   lit "("; n_eq; lit ")"]]);
    ("findings",
      alt [lit "findings"; lit "results show"; lit "we found";
           lit "discovered that";
           Re.seq [lit "demonstrate"; Re.opt (lit "s"); lit " that"]]);
    ("limitations",
      alt [lit "limitation"; lit "caveat"; lit "shortcoming";
           lit "weakness of this study"]);
    ("future_research",
      alt [lit "future research"; lit "further investigation";
           lit "future studies"]) ].

Definition analyze_research_components (text : string) : dict nat :=
  fold_left
    (fun components '(component, pattern) =>
       let count := List.length (Re.findall (Re.ignorecase pattern) text) in
       if 0 <? count then dict_set components component count else components)
    research_patterns [].

(** ** Citations *)

Definition citation_patterns : list Re.regex :=
  let lit := Re.escape in
  let name := Re.Seq Re.upper_az (Re.plus Re.lower_az) in   (* [A-Z][a-z]+ *)
  let sp := Re.plus Re.space in                             (* \s+ *)
  let year := Re.rep 4 Re.digit in                          (* \d{4} *)
  let comma := Re.opt (lit ",") in                          (* ,? *)
  [ (* \([A-Z][a-z]+(?:,?\s+(?:and|&)\s+[A-Z][a-z]+)*,?\s+\d{4}\) *)
    Re.seq [lit "("; name;
            Re.Star (Re.seq [comma; sp; Re.Alt (lit "and") (lit "&"); sp; name]);
            comma; sp; year; lit ")"];
    (* \([A-Z][a-z]+\s+et\s+al\.,?\s+\d{4}\) *)
    Re.seq [lit "("; name; sp; lit "et"; sp; lit "al."; comma; sp; year;
            lit ")"];
    (* [A-Z][a-z]+\s+\(\d{4}\) *)
    Re.seq [name; sp; lit "("; year; lit ")"] ].

(** The pooled list [all_citations] of the raw matches. *)
Definition all_citations (text : string) : list string :=
  fold_left (fun acc pattern => acc ++ Re.findall pattern text)
            citation_patterns [].

Record Citations : Type := {
  total_citations : nat;
  unique_citations : nat;
  sample_citations : list string
}.

Definition extract_citations `{SetOrder} (text : string) : Citations :=
  let all_citations := all_citations text in
  {| total_citations := List.length all_citations;
     unique_citations := len_set all_citations;
     sample_citations := firstn 10 (set_list all_citations) |}.

(** Two iteration orders, for running the analyzer on examples. *)
#[export] Instance stored_order : SetOrder :=
  {| set_list := distinct;
     set_list_perm := fun l => Permutation_refl (distinct l) |}.

Definition reversed_order : SetOrder :=
  {| set_list := fun l => rev (distinct l);
     set_list_perm := fun l => Permutation_sym (Permutation_rev (distinct l)) |}.

(** ** Keywords *)

Definition stop_words : list string :=
  [ "the"; "a"; "an"; "and"; "or"; "but"; "in"; "on"; "at"; "to"; "for";
    "of"; "with"; "by"; "from"; "as"; "is"; "was"; "are"; "were"; "been";
    "be"; "have"; "has"; "had"; "do"; "does"; "did"; "will"; "would";
    "could"; "should"; "may"; "might"; "can"; "this"; "that"; "these";
    "those"; "i"; "you"; "he"; "she"; "it"; "we"; "they"; "what"; "which";
    "who"; "when"; "where"; "why"; "how"; "all"; "each"; "every"; "both";
    "few"; "more"; "most"; "other"; "some"; "such"; "than"; "too"; "very" ].

(** [w in l] *)
Definition mem (w : string) (l : list string) : bool :=
  existsb (String.eqb w) l.

(** [Counter(words)]: a dictionary of counts, keys in the order of their
    first occurrence. *)
Fixpoint counter_incr (d : dict nat) (w : string) : dict nat :=
  match d with
  | [] => [(w, 1)]
  | (w', n) :: d' =>
      if String.eqb w' w then (w', S n) :: d' else (w', n) :: counter_incr d' w
  end.

Definition Counter (words : list string) : dict nat :=
  fold_left counter_incr words [].

(** [Counter.most_common(n)]: the [n] largest items by count, equal counts
    in the order of the dictionary. *)
Definition most_common (d : dict nat) (n : nat) : list (string * nat) :=
  firstn n (sorted_desc snd d).

(** \b[a-z]{4,}\b *)
Definition word_pattern : Re.regex :=
  Re.seq [Re.Bound; Re.at_least 4 Re.lower_az; Re.Bound].

(** [top_n] is a keyword argument with default 20: [None] is the call
    that leaves it out. *)
Definition extract_keywords (text : string) (top_n : option nat)
  : list (string * nat) :=
  let top_n := match top_n with Some n => n | None => 20 end in
  let words := Re.findall word_pattern (lower text) in
  let words := filter (fun w => negb (mem w stop_words)) words in
  let word_freq := Counter words in
  most_common word_freq top_n.

(** ** Document summary *)

(** [s.strip()] *)
Fixpoint lstrip (s : string) : string :=
  match s with
  | String c s' => if Char.is_space c then lstrip s' else s
  | EmptyString => EmptyString
  end.

Fixpoint rstrip (s : string) : string :=
  match s with
  | String c s' =>
      match rstrip s' with
      | EmptyString => if Char.is_space c then EmptyString else String c EmptyString
      | t => String c t
      end
  | EmptyString => EmptyString
  end.

Definition strip (s : string) : string := rstrip (lstrip s).

Definition snoc (s : string) (c : ascii) : string :=
  (s ++ String c EmptyString)%string.

(** [s.split()]: the maximal runs of characters that are not whitespace;
    [word] is the run being read. *)
Fixpoint split_whitespace_from (s word : string) : list string :=
  match s with
  | EmptyString => match word with EmptyString => [] | _ => [word] end
  | String c s' =>
      if Char.is_space c
      then match word with
           | EmptyString => split_whitespace_from s' EmptyString
           | _ => word :: split_whitespace_from s' EmptyString
           end
      else split_whitespace_from s' (snoc word c)
  end.

Definition split_whitespace (s : string) : list string :=
  split_whitespace_from s EmptyString.

(** [s.split(sep)] for a separator that is not empty: the pieces between
    the occurrences of [sep] found from left to right; [skip] counts the
    characters still covered by the last occurrence, [piece] is the piece
    being read. *)
Fixpoint split_sep_from (sep s : string) (skip : nat) (piece : string)
  : list string :=
  match s with
  | EmptyString => [piece]
  | String c s' =>
      match skip with
      | S skip' => split_sep_from sep s' skip' piece
      | O =>
          if String.prefix sep s
          then piece :: split_sep_from sep s' (String.length sep - 1) EmptyString
          else split_sep_from sep s' 0 (snoc piece c)
      end
  end.

Definition split_sep (s sep : string) : list string :=
  split_sep_from sep s 0 EmptyString.

(** [re.split(r, s)] for a pattern without groups that consumes at least
    one character: the pieces between the matches [re.findall] finds. *)
Fixpoint re_split_from (r : Re.regex) (prev : option ascii) (s : string)
  (skip : nat) (piece : string) : list string :=
  match s with
  | EmptyString => [piece]
  | String c s' =>
      match skip with
      | S skip' => re_split_from r (Some c) s' skip' piece
      | O =>
          match Re.match_here r prev s with
          | Some (String _ m) =>
              piece :: re_split_from r (Some c) s' (String.length m) EmptyString
          | _ => re_split_from r (Some c) s' 0 (snoc piece c)
          end
      end
  end.

Definition re_split (r : Re.regex) (s : string) : list string :=
  re_split_from r None s 0 EmptyString.

Definition newline : ascii := ascii_of_nat 10.
Definition blank_line : string := String newline (String newline EmptyString).

(** [.!?]+ *)
Definition sentence_end : Re.regex :=
  Re.plus (Re.Cls (fun c => mem (String c EmptyString) ["."; "!"; "?"])).

Record Summary : Type := {
  word_count : nat;
  sentence_count : nat;
  avg_sentence_length : Q;
  paragraph_count : nat
}.

(** The average is the quotient of two integers, which Python rounds to a
    float; the quotient itself is kept here.  The divisor is
    [max(len(sentences), 1)], never zero. *)
Definition generate_summary (text : string) : Summary :=
  let sentences := re_split sentence_end text in
  let sentences :=
    map strip (filter (fun s => 20 <? String.length (strip s)) sentences) in
  {| word_count := List.length (split_whitespace text);
     sentence_count := List.length sentences;
     avg_sentence_length :=
       Z.of_nat (List.length (split_whitespace text))
       # Pos.of_nat (Nat.max (List.length sentences) 1);
     paragraph_count := List.length (split_sep text blank_line) |}.

(** ** The full analysis *)

Module Report.
(** The dictionary [analyze] returns. *)
Record t : Type := {
  filepath : string;
  timestamp : string;
  summary : Summary;
  methodology : dict nat;
  theories : dict (nat * list string);
  concepts : dict nat;
  components : dict nat;
  citations : Citations;
  keywords : list (string * nat)
}.
End Report.

(** What section 2 of the printed report says: either the line
    "No clear methodology indicators found.", or one line per category,
    by descending count, and then the line "Primary Methodology: ..." when
    there is one.  (The percentages printed with each count are floats and
    are left out.) *)
Inductive MethodologySection : Type :=
| NoClearIndicators : MethodologySection
| Mentions : list (string * nat) -> option string -> MethodologySection.

(** The printed report, section by section, as the data each section
    prints; headers and number formats are left out. *)
Record Narrative : Type := {
  document_statistics : Summary;
  research_methodology : MethodologySection;
  sociological_theories : list (string * (nat * list string));
  key_concepts : list (string * nat);
  research_components : list (string * nat);
  citation_analysis : nat * nat * list string;
  top_keywords : list (string * nat)
}.

Definition methodology_section (methodology : dict nat) : MethodologySection :=
  let total_method_mentions := sum (map snd methodology) in
  if 0 <? total_method_mentions
  then
    Mentions (sorted_desc snd methodology)
      match max_by snd methodology with
      | Some primary => if 0 <? snd primary then Some (fst primary) else None
      | None => None
      end
  else NoClearIndicators.

(** [read_file]: the text of the file, or [None] when it cannot be read;
    [fs] is the file system. *)
Definition read_file (fs : string -> option string) (filepath : string)
  : option string := fs filepath.

(** [analyze]: [None] when the file cannot be read or is empty ([if not
    text: return None]); [now] is the clock reading that becomes the
    timestamp. *)
Definition analyze `{SetOrder} (fs : string -> option string) (now : string)
  (filepath : string) : option (Narrative * Report.t) :=
  match read_file fs filepath with
  | None => None
  | Some EmptyString => None
  | Some text =>
      let summary := generate_summary text in
      let methodology := detect_methodology text in
      let theories := identify_theories text in
      let concepts := extract_concepts text in
      let components := analyze_research_components text in
      let citations := extract_citations text in
      let keywords := extract_keywords text (Some 15) in
      Some
        ({| document_statistics := summary;
            research_methodology := methodology_section methodology;
            sociological_theories :=
              map (fun '(theory, (count, terms)) =>
                     (theory, (count, firstn 5 terms)))
                  (sorted_desc (fun x => fst (snd x)) theories);
            key_concepts := firstn 15 concepts;
            research_components := components;
            citation_analysis :=
              (total_citations citations, unique_citations citations,
               firstn 5 (sample_citations citations));
            top_keywords := keywords |},
         {| Report.filepath := filepath;
            Report.timestamp := now;
            Report.summary := summary;
            Report.methodology := methodology;
            Report.theories := theories;
            Report.concepts := concepts;
            Report.components := components;
            Report.citations := citations;
            Report.keywords := keywords |})
  end.

(** The file system with one file. *)
Definition one_file (path text : string) : string -> option string :=
  fun p => if String.eqb p path then Some text else None.

(** ** Export and command line *)

(** [l.index(x)]: the position of the first [x] ([ValueError], here
    [None], when there is none). *)
Fixpoint index (x : string) (l : list string) : option nat :=
  match l with
  | [] => None
  | y :: l' =>
      if String.eqb y x then Some 0
      else match index x l' with
           | Some i => Some (S i)
           | None => None
           end
  end.

(** The export file [main] reads off [sys.argv]. *)
Definition export_argument (argv : list string) : option string :=
  if mem "--export" argv
  then
    match index "--export" argv with
    | Some export_index =>
        if export_index + 1 <? List.length argv
        then nth_error argv (export_index + 1)
        else None
    | None => None
    end
  else None.

(** * Properties *)

(** ** The regular-expression engine *)

Module ReFacts.
Import Re.

Lemma star_loop_ext body k1 k2 :
  (forall prev s c1 c2, (forall p t, c1 p t = c2 p t) ->
                        body prev s c1 = body prev s c2) ->
  (forall p t, k1 p t = k2 p t) ->
  forall n prev s, star_loop body k1 n prev s = star_loop body k2 n prev s.
Proof.
  intros Hbody Hk n; induction n as [|n IH]; intros prev s; simpl.
  - apply Hk.
  - rewrite (Hbody prev s _
               (fun prev' s' =>
                  if String.length s' <? String.length s
                  then star_loop body k2 n prev' s' else None)).
    + now rewrite Hk.
    + intros p t; destruct (String.length t <? String.length s); auto.
Qed.

(** The result of a match depends on the continuation only through its
    values. *)
Lemma run_ext r :
  forall prev s k1 k2, (forall p t, k1 p t = k2 p t) ->
                       run r prev s k1 = run r prev s k2.
Proof.
  induction r as [|p|r1 IH1 r2 IH2|r1 IH1 r2 IH2|r IH|];
    intros prev s k1 k2 Hk; simpl.
  - apply Hk.
  - destruct s as [|c s']; [reflexivity|]. now rewrite Hk.
  - apply IH1; intros p t; now apply IH2.
  - now rewrite (IH1 prev s k1 k2 Hk), (IH2 prev s k1 k2 Hk).
  - now apply star_loop_ext.
  - now rewrite Hk.
Qed.

(** Nothing matches in front of a continuation that always fails. *)
Lemma run_none r :
  forall prev s k, (forall p t, k p t = None) -> run r prev s k = None.
Proof.
  induction r as [|p|r1 IH1 r2 IH2|r1 IH1 r2 IH2|r IH|];
    intros prev s k Hk; simpl.
  - apply Hk.
  - destruct s as [|c s']; [reflexivity|]. rewrite Hk. now destruct (p c).
  - apply IH1; intros p t; now apply IH2.
  - now rewrite IH1, IH2.
  - generalize (String.length s) at 1; intros n; revert prev s.
    induction n as [|n IHn]; intros prev s; simpl; [apply Hk|].
    rewrite IH, ?Hk; auto.
    intros p t; destruct (String.length t <? String.length s); auto.
  - rewrite Hk. now destruct (at_boundary prev s).
Qed.

(** The bound of the repetition loop is never the reason it stops: any
    bound from the length of the remaining text on gives the same result. *)
Lemma star_loop_enough r k :
  forall n m prev s,
    String.length s <= n -> String.length s <= m ->
    star_loop (run r) k n prev s = star_loop (run r) k m prev s.
Proof.
  assert (Hstop : forall n prev s,
             String.length s = 0 -> star_loop (run r) k n prev s = k prev s).
  { intros [|n] prev s Hs; simpl; [reflexivity|].
    rewrite run_none; [reflexivity|].
    intros p t; rewrite Hs. reflexivity. }
  induction n as [|n IH]; intros [|m] prev s Hn Hm.
  - reflexivity.
  - rewrite !Hstop; auto; lia.
  - rewrite !Hstop; auto; lia.
  - simpl.
    rewrite (run_ext r prev s _
               (fun prev' s' =>
                  if String.length s' <? String.length s
                  then star_loop (run r) k m prev' s' else None)); [reflexivity|].
    intros p t. destruct (String.length t <? String.length s) eqn:E; [|reflexivity].
    apply Nat.ltb_lt in E. apply IH; lia.
Qed.

End ReFacts.

(** ** Sorting and maxima *)

Section SortingFacts.
Variable A : Type.
Variable key : A -> nat.

Definition desc (x y : A) : Prop := key y <= key x.

Lemma insert_desc_perm x l : Permutation (insert_desc key x l) (x :: l).
Proof.
  induction l as [|y l IH]; simpl; [reflexivity|].
  destruct (key y <=? key x); [reflexivity|].
  rewrite IH. apply perm_swap.
Qed.

Lemma sorted_desc_perm l : Permutation (sorted_desc key l) l.
Proof.
  induction l as [|x l IH]; simpl; [reflexivity|].
  rewrite insert_desc_perm. now constructor.
Qed.

Lemma insert_desc_sorted x l :
  StronglySorted desc l -> StronglySorted desc (insert_desc key x l).
Proof.
  induction 1 as [|y l Hl IH Hy]; simpl.
  - repeat constructor.
  - destruct (key y <=? key x) eqn:E.
    + apply Nat.leb_le in E. constructor; [now constructor|].
      constructor; [exact E|].
      eapply Forall_impl; [|exact Hy]. unfold desc; intros; lia.
    + apply Nat.leb_gt in E. constructor; [exact IH|].
      eapply Permutation_Forall; [symmetry; apply insert_desc_perm|].
      constructor; [unfold desc; lia|exact Hy].
Qed.

Lemma sorted_desc_sorted l : StronglySorted desc (sorted_desc key l).
Proof.
  induction l; simpl; [constructor|now apply insert_desc_sorted].
Qed.

(** Stability: the elements of any one key come out in the order they
    went in. *)
Lemma insert_desc_stable n x l :
  filter (fun y => key y =? n) (insert_desc key x l)
  = filter (fun y => key y =? n) (x :: l).
Proof.
  induction l as [|y l IH]; [reflexivity|].
  cbn [insert_desc]. destruct (key y <=? key x) eqn:E; [reflexivity|].
  apply Nat.leb_gt in E.
  cbn [filter] in *. rewrite IH.
  destruct (key x =? n) eqn:Ex, (key y =? n) eqn:Ey; try reflexivity.
  apply Nat.eqb_eq in Ex, Ey. lia.
Qed.

Lemma sorted_desc_stable n l :
  filter (fun y => key y =? n) (sorted_desc key l)
  = filter (fun y => key y =? n) l.
Proof.
  induction l as [|x l IH]; [reflexivity|].
  cbn [sorted_desc]. rewrite insert_desc_stable. cbn [filter]. now rewrite IH.
Qed.

(** [max] returns the first of the elements with the largest key. *)
Lemma max_by_first x l :
  max_by key l = Some x ->
  exists pre post,
    l = pre ++ x :: post
    /\ Forall (fun y => key y < key x) pre
    /\ Forall (fun y => key y <= key x) post.
Proof.
  revert x; induction l as [|a l IH]; intros x; simpl; [discriminate|].
  destruct (max_by key l) as [y|] eqn:E.
  - destruct (IH y eq_refl) as (pre & post & -> & Hpre & Hpost).
    destruct (key a <? key y) eqn:Elt; intros [= <-].
    + apply Nat.ltb_lt in Elt.
      exists (a :: pre), post. repeat split; auto.
    + apply Nat.ltb_ge in Elt.
      exists [], (pre ++ y :: post). repeat split; auto.
      apply Forall_app; split.
      * eapply Forall_impl; [|exact Hpre]. simpl; intros; lia.
      * constructor; [exact Elt|].
        eapply Forall_impl; [|exact Hpost]. simpl; intros; lia.
  - intros [= <-]. destruct l; [|simpl in E; destruct (max_by key l); [destruct (_ <? _)|]; discriminate].
    exists [], []. repeat split; auto.
Qed.

Lemma max_by_nonempty a l : max_by key (a :: l) <> None.
Proof.
  simpl. destruct (max_by key l); [destruct (_ <? _)|]; discriminate.
Qed.
End SortingFacts.

Lemma sum_from l : forall a, fold_left Nat.add l a = a + sum l.
Proof.
  unfold sum. induction l as [|x l IH]; intros a; simpl; [lia|].
  rewrite IH, (IH x). lia.
Qed.

Lemma sum_cons x l : sum (x :: l) = x + sum l.
Proof. unfold sum at 1. simpl. apply sum_from. Qed.

(** ** The matcher *)

Lemma char_lower_idempotent c : Char.lower (Char.lower c) = Char.lower c.
Proof. destruct c as [[] [] [] [] [] [] [] []]; reflexivity. Qed.

Lemma lower_idempotent s : lower (lower s) = lower s.
Proof.
  induction s as [|c s IH]; simpl; [reflexivity|].
  now rewrite char_lower_idempotent, IH.
Qed.

(** Texts that differ only in case have the same counts: the matcher
    reads the text through [lower] alone. *)
Lemma count_text_case text text' keyword :
  lower text = lower text' -> count text keyword = count text' keyword.
Proof. unfold count. now intros ->. Qed.

Lemma count_lower_text text keyword :
  count (lower text) keyword = count text keyword.
Proof. apply count_text_case, lower_idempotent. Qed.

(** The example of the specification: one theory with two mentions, two
    concepts, one citation. *)
Example durkheim_solidarity :
  let text := "Durkheim studied mechanical solidarity and organic solidarity (Durkheim, 1897)." in
  @identify_theories stored_order text
  = [("structural_functionalism", (2, ["durkheim"]))]
  /\ extract_concepts text
     = [("mechanical solidarity", 1); ("organic solidarity", 1)]
  /\ all_citations text = ["(Durkheim, 1897)"]
  /\ extract_keywords text (Some 3)
     = [("durkheim", 2); ("solidarity", 2); ("studied", 1)].
Proof. vm_compute. repeat split. Qed.

(** Ties of the concept ranking keep the order of the taxonomy, and
    citations of the three forms are pooled pattern by pattern. *)
Example ranking_and_pooling :
  extract_concepts "Norms, roles and status; norms of the field."
  = [("norms", 2); ("field", 1); ("roles", 1); ("status", 1)]
  /\ all_citations
       "Weber (1905), then (Lee et al., 2020) and (Smith & Jones, 2001)."
     = ["(Smith & Jones, 2001)"; "(Lee et al., 2020)"; "Weber (1905)"].
Proof. vm_compute. repeat split. Qed.

(** C5: the matcher matches whole words only: the keyword "class" is not
    found inside "classroom", and is found once in "a class of students". *)
Theorem whole_word_boundary :
  count "classroom" "class" = 0 /\ count "a class of students" "class" = 1.
Proof. split; reflexivity. Qed.

(** C1: on the text "n = 45 participants and p < 0.05" every methodology
    score is 0, the quantitative one included.  The keywords "n =" and
    "p <" end in a character that is not a word character, so the closing
    [\b] asks for a word character right after them: they are found in
    "n =45" and "p <0.05" but not when a space follows.  The pattern of the
    research component [sample] does find "n = 45" in the same text. *)
Theorem spaced_operators_score_nothing :
  let text := "n = 45 participants and p < 0.05" in
  detect_methodology text
  = [("qualitative", 0); ("quantitative", 0); ("mixed_methods", 0)]
  /\ count text "n =" = 0 /\ count text "p <" = 0
  /\ count "n =45" "n =" = 1 /\ count "p <0.05" "p <" = 1
  /\ analyze_research_components text = [("sample", 1)].
Proof. vm_compute. repeat split. Qed.

(** C2: the text is lower-cased before matching but the keyword is not, so
    a count does change with the case of the keyword.  The taxonomy entry
    "McDonaldization" is never found, in whatever case the text has it,
    while its lower-case form would be found; "Survey" is not found where
    "survey" is found three times. *)
Theorem keyword_case_matters :
  In "McDonaldization" concepts
  /\ extract_concepts "McDonaldization of society" = []
  /\ count "McDonaldization of society" "McDonaldization" = 0
  /\ count "mcdonaldization of society" "McDonaldization" = 0
  /\ count "McDonaldization of society" (lower "McDonaldization") = 1
  /\ count "Survey SURVEY survey" "survey" = 3
  /\ count "Survey SURVEY survey" "Survey" = 0.
Proof. vm_compute. repeat split. tauto. Qed.

(** No lower-cased text contains the capital the entry starts with, so the
    entry "McDonaldization" has count 0 on every text. *)
Lemma char_lower_not_M c : Ascii.eqb "M" (Char.lower c) = false.
Proof. destruct c as [[] [] [] [] [] [] [] []]; reflexivity. Qed.

Lemma mcdonaldization_no_match prev s :
  Re.match_here (keyword_pattern "McDonaldization") prev (lower s) = None.
Proof.
  unfold Re.match_here, keyword_pattern. cbn [Re.run Re.escape Re.chr].
  destruct (Re.at_boundary prev (lower s)); [|reflexivity].
  destruct s as [|c s]; cbn [lower]; [reflexivity|].
  now rewrite char_lower_not_M.
Qed.

Lemma mcdonaldization_never_counted text :
  count text "McDonaldization" = 0.
Proof.
  unfold count, keyword_count, Re.findall.
  generalize (@None ascii) as prev.
  induction text as [|c s IH]; intros prev.
  - pose proof (mcdonaldization_no_match prev "") as H.
    cbn [lower Re.findall_from] in *. now rewrite H.
  - cbn [lower Re.findall_from].
    change (String (Char.lower c) (lower s)) with (lower (String c s)).
    rewrite mcdonaldization_no_match. apply IH.
Qed.

(** ** Document summary *)

Lemma split_sep_from_nonempty sep s :
  forall skip piece, 1 <= List.length (split_sep_from sep s skip piece).
Proof.
  induction s as [|c s IH]; intros skip piece; [simpl; lia|].
  cbn [split_sep_from].
  destruct skip; [|apply IH].
  destruct (String.prefix sep (String c s)); [simpl; lia|apply IH].
Qed.

(** C10: [paragraph_count] is at least 1 on every text; splitting on the
    blank line always gives a block, and the empty text gives exactly one. *)
Theorem paragraph_count_positive :
  (forall text, 1 <= paragraph_count (generate_summary text))
  /\ paragraph_count (generate_summary "") = 1.
Proof.
  split; [|reflexivity].
  intros text. apply split_sep_from_nonempty.
Qed.

(** ** Citations *)

Section Prefixes.
Variable A : Type.

Lemma firstn_incl n (l : list A) : incl (firstn n l) l.
Proof.
  intros x Hx. rewrite <- (firstn_skipn n l). apply in_or_app; now left.
Qed.

Lemma firstn_NoDup n (l : list A) : NoDup l -> NoDup (firstn n l).
Proof.
  intros H. rewrite <- (firstn_skipn n l) in H.
  now apply NoDup_app_remove_r in H.
Qed.
End Prefixes.

Lemma distinct_NoDup l : NoDup (distinct l).
Proof. apply NoDup_nodup. Qed.

Lemma distinct_In l x : In x (distinct l) <-> In x l.
Proof. apply nodup_In. Qed.

Lemma len_set_le l : len_set l <= List.length l.
Proof.
  apply NoDup_incl_length; [apply distinct_NoDup|].
  intros x; apply distinct_In.
Qed.

Section SetFacts.
Context {order : SetOrder}.

Lemma set_list_NoDup l : NoDup (set_list l).
Proof.
  eapply Permutation_NoDup; [symmetry; apply set_list_perm|].
  apply distinct_NoDup.
Qed.

Lemma set_list_In l x : In x (set_list l) <-> In x l.
Proof.
  rewrite <- (distinct_In l x).
  split; apply Permutation_in;
    [apply set_list_perm|symmetry; apply set_list_perm].
Qed.

Lemma set_list_length l : List.length (set_list l) = len_set l.
Proof. apply Permutation_length, set_list_perm. Qed.

(** C7: whatever the text and the iteration order of the set, there are
    at most as many unique citations as citations, at most
    [min(10, unique_citations)] samples, the samples are pairwise
    distinct, and each of them is one of the raw matches. *)
Theorem citation_report_bounds (text : string) :
  let report := extract_citations text in
  unique_citations report <= total_citations report
  /\ List.length (sample_citations report)
     <= Nat.min 10 (unique_citations report)
  /\ NoDup (sample_citations report)
  /\ incl (sample_citations report) (all_citations text).
Proof.
  cbn [extract_citations unique_citations total_citations sample_citations].
  repeat split.
  - apply len_set_le.
  - rewrite length_firstn, set_list_length. lia.
  - apply firstn_NoDup, set_list_NoDup.
  - intros x Hx. apply firstn_incl in Hx.
    exact (proj1 (set_list_In _ _) Hx).
Qed.
End SetFacts.

(** ** Dictionaries *)

Section DictFacts.
Variable V : Type.
Implicit Types (d : dict V) (k : string) (v : V).

Lemma dict_set_fresh d k v :
  ~ In k (keys d) -> dict_set d k v = d ++ [(k, v)].
Proof.
  induction d as [|[k' v'] d IH]; simpl; intros Hk; [reflexivity|].
  destruct (String.eqb_spec k' k) as [->|_]; [tauto|].
  rewrite IH; tauto.
Qed.

Lemma keys_app d d' : keys (d ++ d') = keys d ++ keys d'.
Proof. apply map_app. Qed.

Lemma dict_of_items_from (items : list (string * V)) :
  forall d, NoDup (keys d ++ keys items) ->
            fold_left (fun d kv => dict_set d (fst kv) (snd kv)) items d
            = d ++ items.
Proof.
  induction items as [|[k v] items IH]; intros d Hd; simpl.
  - now rewrite app_nil_r.
  - simpl in Hd. rewrite dict_set_fresh.
    + rewrite IH, <- app_assoc; [reflexivity|].
      rewrite keys_app, <- app_assoc. exact Hd.
    + apply NoDup_remove_2 in Hd. intros Hk; apply Hd, in_or_app; now left.
Qed.

(** [dict(items)] keeps a list of items with distinct keys as it is. *)
Lemma dict_of_items_NoDup (items : list (string * V)) :
  NoDup (keys items) -> dict_of_items items = items.
Proof. intros H. unfold dict_of_items. now rewrite dict_of_items_from. Qed.

(** Changing the values of a dictionary commutes with setting a key. *)
Lemma dict_set_map W (f : V -> W) d k v :
  dict_set (map (fun kv => (fst kv, f (snd kv))) d) k (f v)
  = map (fun kv => (fst kv, f (snd kv))) (dict_set d k v).
Proof.
  induction d as [|[k' v'] d IH]; simpl; [reflexivity|].
  destruct (String.eqb k' k); simpl; [reflexivity|now rewrite IH].
Qed.
End DictFacts.

Lemma keys_dict_iadd d k n : keys (dict_iadd d k n) = keys d.
Proof.
  induction d as [|[k' v] d IH]; simpl; [reflexivity|].
  destruct (String.eqb k' k); simpl; [reflexivity|now rewrite IH].
Qed.

(** ** Concepts *)

(** The concepts of a list that occur in the text, each with its count,
    in the order of the list. *)
Definition counted (text : string) (cs : list string) : dict nat :=
  filter (fun p => 0 <? snd p) (map (fun c => (c, count text c)) cs).

Lemma keys_counted text cs :
  keys (counted text cs) = filter (fun c => 0 <? count text c) cs.
Proof.
  unfold counted. induction cs as [|c cs IH]; simpl; [reflexivity|].
  destruct (0 <? count text c); simpl; now rewrite IH.
Qed.

Lemma concepts_found_from text cs :
  forall found, NoDup (keys found ++ cs) ->
    fold_left
      (fun found concept =>
         let count := keyword_count (lower text) concept in
         if 0 <? count then dict_set found concept count else found)
      cs found
    = found ++ counted text cs.
Proof.
  induction cs as [|c cs IH]; intros found Hnd; simpl.
  - now rewrite app_nil_r.
  - unfold counted; simpl. fold (count text c). fold (counted text cs).
    destruct (0 <? count text c).
    + rewrite dict_set_fresh.
      * rewrite IH, <- app_assoc; [reflexivity|].
        rewrite keys_app, <- app_assoc. exact Hnd.
      * apply NoDup_remove_2 in Hnd.
        intros Hk; apply Hnd, in_or_app; now left.
    + apply IH. now apply NoDup_remove_1 in Hnd.
Qed.

Lemma concepts_NoDup : NoDup concepts.
Proof.
  assert (H : distinct concepts = concepts) by (vm_compute; reflexivity).
  rewrite <- H. apply distinct_NoDup.
Qed.

Lemma counted_keys_NoDup text cs : NoDup cs -> NoDup (keys (counted text cs)).
Proof. intros H. rewrite keys_counted. now apply NoDup_filter. Qed.

Lemma concepts_found_counted text :
  concepts_found text = counted text concepts.
Proof.
  unfold concepts_found. cbv zeta.
  generalize concepts_NoDup. generalize concepts. intros cs Hcs.
  rewrite concepts_found_from; [apply app_nil_l|exact Hcs].
Qed.

Lemma extract_concepts_sorted text :
  extract_concepts text = sorted_desc snd (counted text concepts).
Proof.
  unfold extract_concepts. rewrite concepts_found_counted.
  generalize concepts_NoDup. generalize concepts. intros cs Hcs.
  apply dict_of_items_NoDup.
  apply (Permutation_NoDup (l := keys (counted text cs))).
  - unfold keys. apply Permutation_map. symmetry. apply sorted_desc_perm.
  - now apply counted_keys_NoDup.
Qed.

Lemma counted_of_count text n cs :
  keys (filter (fun p => snd p =? n) (counted text cs))
  = filter (fun c => (0 <? count text c) && (count text c =? n)) cs.
Proof.
  unfold counted. induction cs as [|c cs IH]; simpl; [reflexivity|].
  destruct (0 <? count text c); simpl; [|exact IH].
  destruct (count text c =? n); simpl; now rewrite IH.
Qed.

(** C8: on every text, each concept [extract_concepts] returns is a
    taxonomy concept with its count, which is strictly positive; the counts
    do not increase along the result; and the concepts of any one count
    come in the order of their declaration in the taxonomy. *)
Theorem concepts_ranked (text : string) :
  let ranked := extract_concepts text in
  Forall (fun p => In (fst p) concepts
                   /\ snd p = count text (fst p) /\ 0 < snd p) ranked
  /\ StronglySorted (fun p q => snd q <= snd p) ranked
  /\ forall n,
       keys (filter (fun p => snd p =? n) ranked)
       = filter (fun c => (0 <? count text c) && (count text c =? n)) concepts.
Proof.
  cbv zeta. rewrite extract_concepts_sorted.
  generalize concepts. intros cs. repeat split.
  - eapply Permutation_Forall; [symmetry; apply sorted_desc_perm|].
    unfold counted. apply Forall_forall. intros [c n] Hin.
    apply filter_In in Hin. destruct Hin as [Hin Hpos].
    apply in_map_iff in Hin. destruct Hin as (c' & [= <- <-] & Hc).
    simpl in *. apply Nat.ltb_lt in Hpos. auto.
  - apply (sorted_desc_sorted snd).
  - intros n. rewrite (sorted_desc_stable snd). apply counted_of_count.
Qed.

(** ** Methodology *)

(** The scores keep the three keys they start with, which are the keys of
    the taxonomy: [dict_iadd] never meets an absent key. *)
Lemma methodology_keys_present text :
  keys (detect_methodology text) = keys methodologies.
Proof.
  unfold detect_methodology. cbv zeta.
  change (keys methodologies)
    with (keys [("qualitative", 0); ("quantitative", 0); ("mixed_methods", 0)]).
  generalize [("qualitative", 0); ("quantitative", 0); ("mixed_methods", 0)].
  generalize methodologies. intros ms.
  induction ms as [|[method_type keywords] ms IH]; intros scores;
    [reflexivity|].
  cbn [fold_left]. rewrite IH. clear IH. revert scores.
  induction keywords as [|keyword keywords IH]; intros scores;
    [reflexivity|].
  cbn [fold_left]. rewrite IH. apply keys_dict_iadd.
Qed.

Lemma methodology_dense text :
  exists a b c,
    detect_methodology text
    = [("qualitative", a); ("quantitative", b); ("mixed_methods", c)].
Proof.
  pose proof (methodology_keys_present text) as H.
  change (keys methodologies)
    with ["qualitative"; "quantitative"; "mixed_methods"] in H.
  destruct (detect_methodology text) as [|[k1 a] [|[k2 b] [|[k3 c] [|? ?]]]];
    try discriminate.
  injection H as -> -> ->. now exists a, b, c.
Qed.

Lemma sum_all_zero (l : list nat) : Forall (fun n => n <= 0) l -> sum l = 0.
Proof.
  induction 1 as [|n l Hn _ IH]; [reflexivity|].
  rewrite sum_cons, IH. lia.
Qed.

(** Section 2 of the report, for any scores: nothing is named when the
    scores add up to 0; otherwise the category named is the first, in the
    order of the dictionary, of those with the largest score. *)
Lemma methodology_section_first_max (m : dict nat) :
  match sum (map snd m) with
  | O => methodology_section m = NoClearIndicators
  | S _ =>
      exists pre p n post,
        m = pre ++ (p, n) :: post
        /\ Forall (fun x => snd x < n) pre
        /\ Forall (fun x => snd x <= n) post
        /\ methodology_section m = Mentions (sorted_desc snd m) (Some p)
  end.
Proof.
  unfold methodology_section. cbv zeta.
  destruct (sum (map snd m)) as [|t] eqn:Et; [reflexivity|].
  change (0 <? S t) with true. cbv iota.
  destruct (max_by snd m) as [[p n]|] eqn:Em.
  - destruct (max_by_first snd _ Em) as (pre & post & Hm & Hpre & Hpost).
    exists pre, p, n, post. simpl in Hpre, Hpost. repeat split; auto.
    destruct n as [|n]; [|reflexivity].
    exfalso. rewrite sum_all_zero in Et; [discriminate|].
    rewrite Hm, map_app, Forall_app. split.
    + apply Forall_map. eapply Forall_impl; [|exact Hpre]. simpl; lia.
    + simpl. constructor; [lia|]. now apply Forall_map.
  - destruct m; [discriminate|]. now apply max_by_nonempty in Em.
Qed.

(** The claim C3 makes for one text. *)
Definition holds_strict_maximum (m : dict nat) (p : string) : Prop :=
  exists n, In (p, n) m /\ forall q k, In (q, k) m -> q <> p -> k < n.

Definition names_primary (section : MethodologySection) (p : string) : Prop :=
  exists rows, section = Mentions rows (Some p).

Definition primary_is_strict_maximum (text : string) : Prop :=
  let m := detect_methodology text in
  (0 < sum (map snd m) ->
   exists p, names_primary (methodology_section m) p
             /\ holds_strict_maximum m p)
  /\ (sum (map snd m) = 0 -> methodology_section m = NoClearIndicators).

(** C3, as stated, fails on a tie: "a survey and an interview" mentions the
    qualitative and the quantitative category once each, and the report
    names the qualitative one, which holds no strict maximum. *)
Lemma primary_on_a_tie :
  ~ primary_is_strict_maximum "a survey and an interview".
Proof.
  intros [H _]. destruct H as (p & [rows Hrows] & n & Hin & Hmax).
  - vm_compute. lia.
  - vm_compute in Hrows. injection Hrows as _ <-.
    assert (Hm : detect_methodology "a survey and an interview"
                 = [("qualitative", 1); ("quantitative", 1);
                    ("mixed_methods", 0)]) by (vm_compute; reflexivity).
    rewrite Hm in Hin, Hmax.
    assert (n = 1) as ->.
    { destruct Hin as [[= <-]|[[=]|[[=]|[]]]]. reflexivity. }
    specialize (Hmax "quantitative" 1 (or_intror (or_introl eq_refl))).
    assert (1 < 1); [apply Hmax; discriminate|lia].
Qed.

(** C3, amended: when the methodology mentions add up to more than 0, the
    report names a primary methodology, whose count is the maximum and
    which is the first such category in the order qualitative,
    quantitative, mixed methods; the category holding a strict maximum,
    when there is one, is the one named.  When the mentions add up to 0
    the report says that no methodology was found and names none. *)
Theorem primary_methodology (text : string) :
  let m := detect_methodology text in
  keys m = ["qualitative"; "quantitative"; "mixed_methods"]
  /\ match sum (map snd m) with
     | O => methodology_section m = NoClearIndicators
     | S _ =>
         exists pre p n post,
           m = pre ++ (p, n) :: post
           /\ Forall (fun x => snd x < n) pre
           /\ Forall (fun x => snd x <= n) post
           /\ names_primary (methodology_section m) p
           /\ forall q, holds_strict_maximum m q -> q = p
     end.
Proof.
  cbv zeta. split; [apply methodology_keys_present|].
  pose proof (methodology_section_first_max (detect_methodology text)) as H.
  destruct (sum (map snd (detect_methodology text))) as [|t]; [exact H|].
  destruct H as (pre & p & n & post & Hm & Hpre & Hpost & Hsec).
  exists pre, p, n, post. repeat split; auto.
  - now exists (sorted_desc snd (detect_methodology text)).
  - intros q (k & Hq & Hstrict).
    destruct (string_dec q p) as [|Hne]; [assumption|exfalso].
    assert (Hp : In (p, n) (detect_methodology text))
      by (rewrite Hm; apply in_or_app; right; now left).
    assert (n < k) by (apply (Hstrict p n Hp); congruence).
    rewrite Hm in Hq. apply in_app_or in Hq. destruct Hq as [Hq|[Hq|Hq]].
    + rewrite Forall_forall in Hpre. apply Hpre in Hq. simpl in Hq. lia.
    + injection Hq as -> ->. lia.
    + rewrite Forall_forall in Hpost. apply Hpost in Hq. simpl in Hq. lia.
Qed.

(** ** Keywords *)

Definition twenty_words : string :=
  "alpha bravo charlie delta echo foxtrot golf hotel india juliet kilo lima mike november oscar papa quebec romeo sierra tango".

(** The claim C4 makes for the analysis of one text: fifteen keywords in
    the printed report, twenty in the returned one. *)
Definition keywords_15_and_20 (text : string) : Prop :=
  match @analyze stored_order (one_file "paper.txt" text) "" "paper.txt" with
  | Some (narrative, report) =>
      top_keywords narrative = extract_keywords text (Some 15)
      /\ Report.keywords report = extract_keywords text (Some 20)
  | None => True
  end.

(** C4, as stated, fails on a text of twenty different words: the report
    [analyze] returns holds the fifteen keywords that were printed, not
    twenty. *)
Lemma report_keeps_fifteen_keywords : ~ keywords_15_and_20 twenty_words.
Proof.
  unfold keywords_15_and_20. vm_compute. intros [_ H]. discriminate H.
Qed.

(** C4, amended: [analyze] asks for the top 15 keywords once, prints them
    and returns the same list in its report; the number asked of
    [extract_keywords] is the caller's choice, 20 when left out, it bounds
    the length of the result, and a smaller request returns the beginning
    of a larger one. *)
Theorem keywords_top_n :
  (forall (order : SetOrder) fs now path,
      match analyze fs now path with
      | Some (narrative, report) =>
          exists text,
            fs path = Some text
            /\ top_keywords narrative = extract_keywords text (Some 15)
            /\ Report.keywords report = extract_keywords text (Some 15)
      | None => True
      end)
  /\ (forall text, extract_keywords text None = extract_keywords text (Some 20))
  /\ (forall text n, List.length (extract_keywords text (Some n)) <= n)
  /\ (forall text n k,
         extract_keywords text (Some n)
         = firstn n (extract_keywords text (Some (n + k)))).
Proof.
  repeat split.
  - intros order fs now path. unfold analyze, read_file.
    destruct (fs path) as [[|c text]|]; [exact I| |exact I].
    cbv beta iota zeta. exists (String c text). repeat split.
  - intros text n. unfold extract_keywords, most_common.
    rewrite length_firstn. lia.
  - intros text n k. unfold extract_keywords, most_common.
    rewrite firstn_firstn. f_equal. lia.
Qed.

(** ** The empty text *)

(** The claim C9 makes: zero statistics, every category map empty, no
    keywords. *)
Definition empty_text_all_empty : Prop :=
  let summary := generate_summary "" in
  word_count summary = 0
  /\ sentence_count summary = 0
  /\ avg_sentence_length summary = 0%Q
  /\ detect_methodology "" = []
  /\ @identify_theories stored_order "" = []
  /\ extract_concepts "" = []
  /\ analyze_research_components "" = []
  /\ extract_keywords "" None = [].

(** C9, as stated, fails: the methodology map of the empty text is not
    empty, it has its three categories. *)
Lemma empty_text_methodology_not_empty : ~ empty_text_all_empty.
Proof.
  unfold empty_text_all_empty. vm_compute.
  intros (_ & _ & _ & H & _). discriminate H.
Qed.

(** C9, amended: on the empty text the summary has [word_count],
    [sentence_count] and [avg_sentence_length] equal to 0 (the divisor is
    1), the methodology map has its three categories, each with score 0,
    the theory, concept and component maps are empty, and there are no
    keywords, whatever number is asked for.  [analyze] itself returns no
    report for a file whose text is empty. *)
Theorem empty_text_analysis :
  forall order : SetOrder,
    let summary := generate_summary "" in
    word_count summary = 0
    /\ sentence_count summary = 0
    /\ avg_sentence_length summary = 0%Q
    /\ detect_methodology ""
       = [("qualitative", 0); ("quantitative", 0); ("mixed_methods", 0)]
    /\ identify_theories "" = []
    /\ extract_concepts "" = []
    /\ analyze_research_components "" = []
    /\ (forall top_n, extract_keywords "" top_n = [])
    /\ (forall now path, analyze (one_file path "") now path = None).
Proof.
  intros order. cbv zeta. repeat split.
  - intros [n|]; unfold extract_keywords, most_common;
      change (Re.findall word_pattern (lower "")) with (@nil string);
      apply firstn_nil.
  - intros now path. unfold analyze, read_file, one_file.
    now rewrite String.eqb_refl.
Qed.

(** ** Running the analysis twice *)

(** [identify_theories] before the matched terms of a theory go through a
    set: the part of the result that no iteration order touches. *)
Definition theories_matched (text : string) : dict (nat * list string) :=
  let text_lower := lower text in
  fold_left
    (fun theories_found '(theory_name, keywords) =>
       let '(count, matched_terms) :=
         fold_left
           (fun '(count, matched_terms) keyword =>
              let matches := keyword_count text_lower keyword in
              if 0 <? matches
              then (count + matches, matched_terms ++ [keyword])
              else (count, matched_terms))
           keywords (0, []) in
       if 0 <? count
       then dict_set theories_found theory_name (count, matched_terms)
       else theories_found)
    theories [].

Definition through_set (order : SetOrder) (kv : string * (nat * list string))
  : string * (nat * list string) :=
  (fst kv, (fst (snd kv), @set_list order (snd (snd kv)))).

Lemma identify_theories_matched (order : SetOrder) text :
  identify_theories text = map (through_set order) (theories_matched text).
Proof.
  unfold identify_theories, theories_matched. cbv zeta.
  change (@nil (string * (nat * list string)))
    with (map (through_set order) []) at 1.
  generalize (@nil (string * (nat * list string))).
  generalize theories. intros ts.
  induction ts as [|[theory_name keywords] ts IH]; intros found;
    [reflexivity|].
  cbn [fold_left]. rewrite <- IH. f_equal.
  destruct (fold_left _ keywords (0, [])) as [count matched_terms].
  destruct (0 <? count); [|reflexivity].
  exact (dict_set_map (fun v => (fst v, @set_list order (snd v)))
           found theory_name (count, matched_terms)).
Qed.

(** Two reports on the same [text] that differ at most in the order in
    which sets were iterated: every field but the timestamp is the same,
    except that the matched terms of a theory are the same up to their
    order and the sample citations of either report are the first ten of
    an enumeration of the distinct citations of the text. *)
Definition same_up_to_set_order (text : string) (r1 r2 : Report.t) : Prop :=
  Report.filepath r1 = Report.filepath r2
  /\ Report.summary r1 = Report.summary r2
  /\ Report.methodology r1 = Report.methodology r2
  /\ Report.concepts r1 = Report.concepts r2
  /\ Report.components r1 = Report.components r2
  /\ Report.keywords r1 = Report.keywords r2
  /\ Forall2 (fun t1 t2 =>
                fst t1 = fst t2
                /\ fst (snd t1) = fst (snd t2)
                /\ Permutation (snd (snd t1)) (snd (snd t2)))
             (Report.theories r1) (Report.theories r2)
  /\ total_citations (Report.citations r1)
     = total_citations (Report.citations r2)
  /\ unique_citations (Report.citations r1)
     = unique_citations (Report.citations r2)
  /\ exists l1 l2,
       Permutation l1 (distinct (all_citations text))
       /\ Permutation l2 (distinct (all_citations text))
       /\ sample_citations (Report.citations r1) = firstn 10 l1
       /\ sample_citations (Report.citations r2) = firstn 10 l2.

(** The claim C6 makes for one text: two runs, each with the clock and the
    set iteration order of its own interpreter, agree on every field but
    the timestamp. *)
Definition runs_agree (text : string) : Prop :=
  forall (order1 order2 : SetOrder) (now1 now2 : string),
    match @analyze order1 (one_file "paper.txt" text) now1 "paper.txt",
          @analyze order2 (one_file "paper.txt" text) now2 "paper.txt" with
    | Some (_, r1), Some (_, r2) =>
        Report.summary r1 = Report.summary r2
        /\ Report.methodology r1 = Report.methodology r2
        /\ Report.theories r1 = Report.theories r2
        /\ Report.concepts r1 = Report.concepts r2
        /\ Report.components r1 = Report.components r2
        /\ Report.citations r1 = Report.citations r2
    | _, _ => True
    end.

(** C6, as stated, fails: with two citations in the text, two iteration
    orders of the set of citations give two sample sequences. *)
Lemma sample_citations_follow_set_order :
  ~ runs_agree "Weber (1905) and Durkheim (1897) agree.".
Proof.
  intros H. specialize (H stored_order reversed_order "" "").
  vm_compute in H. destruct H as (_ & _ & _ & _ & _ & H). discriminate H.
Qed.

Lemma through_set_related (order1 order2 : SetOrder) found :
  Forall2 (fun t1 t2 =>
             fst t1 = fst t2
             /\ fst (snd t1) = fst (snd t2)
             /\ Permutation (snd (snd t1)) (snd (snd t2)))
          (map (through_set order1) found) (map (through_set order2) found).
Proof.
  induction found as [|[name [count terms]] found IH]; simpl; constructor.
  - simpl. repeat split.
    rewrite (@set_list_perm order1), (@set_list_perm order2). reflexivity.
  - exact IH.
Qed.

(** C6, amended: two runs on the same file, each with its own clock and
    set iteration order, either both return no report or return reports
    with identical summary, methodology, concepts, components and keywords,
    the same theories with the same counts, and the same numbers of
    citations; the matched terms of a theory agree up to their order and
    the sample citations of either run are the first ten of an enumeration
    of the distinct citations of the text.  When both runs iterate sets in
    the same order, the theories and the citations, sample sequence
    included, are identical. *)
Theorem analysis_repeatable :
  forall (order1 order2 : SetOrder) fs (now1 now2 path : string),
    match @analyze order1 fs now1 path, @analyze order2 fs now2 path with
    | Some (_, r1), Some (_, r2) =>
        exists text,
          fs path = Some text
          /\ same_up_to_set_order text r1 r2
          /\ ((forall l, @set_list order1 l = @set_list order2 l) ->
              Report.theories r1 = Report.theories r2
              /\ Report.citations r1 = Report.citations r2)
    | None, None => True
    | _, _ => False
    end.
Proof.
  intros order1 order2 fs now1 now2 path. unfold analyze, read_file.
  destruct (fs path) as [[|c text]|]; [exact I| |exact I].
  cbv beta iota zeta. exists (String c text).
  split; [reflexivity|]. split.
  - unfold same_up_to_set_order.
    cbn [Report.filepath Report.summary Report.methodology Report.concepts
         Report.components Report.keywords Report.theories Report.citations
         extract_citations total_citations unique_citations sample_citations].
    repeat (split; [reflexivity|]).
    split; [|repeat (split; [reflexivity|])].
    + rewrite !identify_theories_matched. apply through_set_related.
    + exists (@set_list order1 (all_citations (String c text))),
             (@set_list order2 (all_citations (String c text))).
      split; [apply (@set_list_perm order1)|].
      split; [apply (@set_list_perm order2)|].
      split; reflexivity.
  - intros Hsame.
    cbn [Report.theories Report.citations extract_citations].
    rewrite !identify_theories_matched.
    split.
    + apply map_ext. intros [name [count terms]].
      unfold through_set. cbn [fst snd]. now rewrite Hsame.
    + unfold extract_citations. cbv zeta. now rewrite Hsame.
Qed.


(** * Further properties *)

(** ** What a match is

    The matches of a pattern, stated without the engine: [denotes r prev w
    rest] says that [r] matches the word [w] when the character before it
    is [prev] and the text after it is [rest].  Every match the engine
    reports is one of these. *)

Module ReMeaning.
Import Re.

(** The character before the position reached after reading [w]. *)
Fixpoint last_of (prev : option ascii) (w : string) : option ascii :=
  match w with
  | EmptyString => prev
  | String c w' => last_of (Some c) w'
  end.

Inductive denotes : regex -> option ascii -> string -> string -> Prop :=
| D_eps prev rest :
    denotes Eps prev "" rest
| D_cls (p : ascii -> bool) prev c rest :
    p c = true -> denotes (Cls p) prev (String c "") rest
| D_seq r1 r2 prev w1 w2 rest :
    denotes r1 prev w1 (w2 ++ rest)%string ->
    denotes r2 (last_of prev w1) w2 rest ->
    denotes (Seq r1 r2) prev (w1 ++ w2)%string rest
| D_alt_l r1 r2 prev w rest :
    denotes r1 prev w rest -> denotes (Alt r1 r2) prev w rest
| D_alt_r r1 r2 prev w rest :
    denotes r2 prev w rest -> denotes (Alt r1 r2) prev w rest
| D_star_stop r prev rest :
    denotes (Star r) prev "" rest
| D_star_more r prev w1 w2 rest :
    denotes r prev w1 (w2 ++ rest)%string ->
    denotes (Star r) (last_of prev w1) w2 rest ->
    denotes (Star r) prev (w1 ++ w2)%string rest
| D_bound prev rest :
    at_boundary prev rest = true -> denotes Bound prev "" rest.

Lemma append_assoc (a b c : string) :
  ((a ++ b) ++ c = a ++ (b ++ c))%string.
Proof. induction a as [|x a IH]; simpl; [reflexivity|now rewrite IH]. Qed.

Lemma append_nil_r (a : string) : (a ++ "")%string = a.
Proof. induction a as [|x a IH]; simpl; [reflexivity|now rewrite IH]. Qed.

Lemma length_append (a b : string) :
  String.length (a ++ b) = String.length a + String.length b.
Proof. induction a as [|x a IH]; simpl; [reflexivity|now rewrite IH]. Qed.

Lemma last_of_append prev w1 w2 :
  last_of prev (w1 ++ w2) = last_of (last_of prev w1) w2.
Proof.
  revert prev; induction w1 as [|c w1 IH]; intros prev; simpl;
    [reflexivity|apply IH].
Qed.

Lemma star_loop_sound r k :
  (forall prev s k out,
      run r prev s k = Some out ->
      exists w rest, s = (w ++ rest)%string /\ denotes r prev w rest
                     /\ k (last_of prev w) rest = Some out) ->
  forall n prev s out,
    star_loop (run r) k n prev s = Some out ->
    exists w rest, s = (w ++ rest)%string /\ denotes (Star r) prev w rest
                   /\ k (last_of prev w) rest = Some out.
Proof.
  intros IHr n; induction n as [|n IHn]; intros prev s out H; simpl in H.
  - exists "", s. repeat split; [constructor|exact H].
  - destruct (run r prev s _) as [out'|] eqn:E.
    + injection H as ->.
      apply IHr in E. destruct E as (w1 & rest1 & -> & Hw1 & Hk).
      destruct (String.length rest1 <? String.length (w1 ++ rest1));
        [|discriminate].
      apply IHn in Hk. destruct Hk as (w2 & rest & -> & Hw2 & Hk).
      exists (w1 ++ w2)%string, rest.
      rewrite append_assoc, last_of_append. repeat split; auto.
      now apply D_star_more.
    + exists "", s. repeat split; [constructor|exact H].
Qed.

(** Soundness of the engine: a successful run has read a match of the
    pattern and then run its continuation. *)
Lemma run_sound r :
  forall prev s k out,
    run r prev s k = Some out ->
    exists w rest, s = (w ++ rest)%string /\ denotes r prev w rest
                   /\ k (last_of prev w) rest = Some out.
Proof.
  induction r as [|p|r1 IH1 r2 IH2|r1 IH1 r2 IH2|r IH|];
    intros prev s k out H; simpl in H.
  - exists "", s. repeat split; [constructor|exact H].
  - destruct s as [|c s]; [discriminate|].
    destruct (p c) eqn:Ep; [|discriminate].
    exists (String c ""), s. repeat split; [now constructor|exact H].
  - apply IH1 in H. destruct H as (w1 & rest1 & -> & Hw1 & H).
    apply IH2 in H. destruct H as (w2 & rest & -> & Hw2 & H).
    exists (w1 ++ w2)%string, rest.
    rewrite append_assoc, last_of_append. repeat split; auto.
    now apply D_seq.
  - destruct (run r1 prev s k) as [out'|] eqn:E.
    + injection H as ->. apply IH1 in E.
      destruct E as (w & rest & -> & Hw & Hk).
      exists w, rest. repeat split; auto. now apply D_alt_l.
    + apply IH2 in H. destruct H as (w & rest & -> & Hw & Hk).
      exists w, rest. repeat split; auto. now apply D_alt_r.
  - now apply (star_loop_sound k IH) in H.
  - destruct (at_boundary prev s) eqn:Eb; [|discriminate].
    exists "", s. repeat split; [now constructor|exact H].
Qed.

Lemma take_append w rest :
  take (String.length (w ++ rest) - String.length rest) (w ++ rest) = w.
Proof.
  rewrite length_append, Nat.add_sub.
  induction w as [|c w IH]; simpl; [now destruct rest|now rewrite IH].
Qed.

Lemma match_here_sound r prev s m :
  match_here r prev s = Some m ->
  exists rest, s = (m ++ rest)%string /\ denotes r prev m rest.
Proof.
  unfold match_here.
  destruct (run r prev s _) as [out|] eqn:E; [|discriminate].
  apply run_sound in E. destruct E as (w & rest & -> & Hw & [= <-]).
  rewrite take_append. intros [= <-]. now exists rest.
Qed.

(** Every string [re.findall] returns is a match of the pattern that
    stands in the text: the text is [before ++ m ++ rest]. *)
Lemma findall_from_sound r m :
  forall s prev skip,
    In m (findall_from r prev s skip) ->
    exists before rest,
      s = (before ++ m ++ rest)%string
      /\ denotes r (last_of prev before) m rest.
Proof.
  induction s as [|c s IH]; intros prev skip Hin.
  - cbn [findall_from] in Hin. destruct skip; [|contradiction].
    destruct (match_here r prev "") as [m'|] eqn:E; [|contradiction].
    destruct Hin as [<-|[]]. apply match_here_sound in E.
    destruct E as (rest & Hs & Hm). now exists "", rest.
  - cbn [findall_from] in Hin.
    assert (Hnext : forall skip',
               In m (findall_from r (Some c) s skip') ->
               exists before rest,
                 String c s = (before ++ m ++ rest)%string
                 /\ denotes r (last_of prev before) m rest).
    { intros skip' H. apply IH in H. destruct H as (before & rest & -> & Hm).
      now exists (String c before), rest. }
    destruct skip as [|skip]; [|now apply Hnext in Hin].
    destruct (match_here r prev (String c s)) as [m'|] eqn:E;
      [|now apply Hnext in Hin].
    destruct Hin as [<-|Hin]; [|now apply Hnext in Hin].
    apply match_here_sound in E. destruct E as (rest & Hs & Hm).
    now exists "", rest.
Qed.

Lemma findall_sound r s m :
  In m (findall r s) ->
  exists before rest,
    s = (before ++ m ++ rest)%string
    /\ denotes r (last_of None before) m rest.
Proof. apply findall_from_sound. Qed.

(** The matches of [re.findall] do not overlap: together they are no
    longer than the text. *)
Lemma findall_from_length r :
  forall s prev skip,
    skip <= String.length s ->
    skip + sum (map String.length (findall_from r prev s skip))
    <= String.length s.
Proof.
  induction s as [|c s IH]; intros prev skip Hskip.
  - cbn [findall_from]. simpl in Hskip.
    destruct skip; [|lia].
    destruct (match_here r prev "") as [m|] eqn:E; [|unfold sum; simpl; lia].
    apply match_here_sound in E. destruct E as (rest & Hs & _).
    destruct m; [unfold sum; simpl; lia|discriminate].
  - cbn [findall_from]. cbn [String.length] in *.
    destruct skip as [|skip].
    + destruct (match_here r prev (String c s)) as [m|] eqn:E.
      * apply match_here_sound in E. destruct E as (rest & Hs & _).
        assert (Hlen : String.length m <= S (String.length s)).
        { change (S (String.length s)) with (String.length (String c s)).
          rewrite Hs, length_append. lia. }
        cbn [map]. rewrite sum_cons.
        specialize (IH (Some c) (String.length m - 1)). lia.
      * specialize (IH (Some c) 0). lia.
    + specialize (IH (Some c) skip). lia.
Qed.

Lemma findall_length r s :
  sum (map String.length (findall r s)) <= String.length s.
Proof.
  pose proof (@findall_from_length r s None 0). unfold findall. lia.
Qed.

End ReMeaning.

(** ** Keyword counts *)

Section KeywordFacts.
Import Re ReMeaning.

Lemma denotes_escape keyword :
  forall prev w rest, denotes (escape keyword) prev w rest -> w = keyword.
Proof.
  induction keyword as [|c keyword IH]; intros prev w rest H; simpl in H.
  - now inversion H.
  - inversion H as [| |r1 r2 prev' w1 w2 rest' H1 H2| | | | |]; subst.
    inversion H1 as [|p prev' c' rest' Hc| | | | | |]; subst.
    apply Ascii.eqb_eq in Hc. subst c'.
    simpl. f_equal. eapply IH, H2.
Qed.

(** A match of the pattern built for a keyword is the keyword itself,
    with a word boundary on either side. *)
Lemma denotes_keyword keyword prev w rest :
  denotes (keyword_pattern keyword) prev w rest ->
  w = keyword
  /\ at_boundary prev (keyword ++ rest)%string = true
  /\ at_boundary (last_of prev keyword) rest = true.
Proof.
  unfold keyword_pattern. intros H.
  inversion H as [| |r1 r2 prev1 w1 w2 rest1 H1 H2| | | | |]; subst.
  inversion H1 as [| | | | | | |prev2 rest2 Hb1]; subst.
  inversion H2 as [| |r1 r2 prev3 w3 w4 rest3 H3 H4| | | | |]; subst.
  inversion H4 as [| | | | | | |prev4 rest4 Hb2]; subst.
  apply denotes_escape in H3. subst w3.
  simpl in *. rewrite append_nil_r in *. auto.
Qed.

Lemma length_lower s : String.length (lower s) = String.length s.
Proof. induction s as [|c s IH]; simpl; [reflexivity|now rewrite IH]. Qed.

Lemma lower_append a b : lower (a ++ b) = (lower a ++ lower b)%string.
Proof. induction a as [|c a IH]; simpl; [reflexivity|now rewrite IH]. Qed.

Lemma append_same_length (a a' b b' : string) :
  String.length a = String.length a' ->
  (a ++ b)%string = (a' ++ b')%string -> a = a' /\ b = b'.
Proof.
  revert a'; induction a as [|c a IH]; intros [|c' a'] Hlen H;
    try discriminate; simpl in *.
  - auto.
  - injection H as -> H. injection Hlen as Hlen.
    destruct (IH a' Hlen H) as [-> ->]. auto.
Qed.

(** A piece of a lower-cased text is in lower case. *)
Lemma lower_piece text before m rest :
  lower text = (before ++ m ++ rest)%string -> lower m = m.
Proof.
  intros H. pose proof (lower_idempotent text) as Hl.
  rewrite H in Hl. rewrite !lower_append in Hl.
  apply append_same_length in Hl; [|apply length_lower].
  destruct Hl as [_ Hl].
  apply append_same_length in Hl; [|apply length_lower].
  tauto.
Qed.

Lemma sum_same_length keyword (l : list string) :
  Forall (eq keyword) l ->
  sum (map String.length l) = List.length l * String.length keyword.
Proof.
  induction 1 as [|m l <- _ IH]; [reflexivity|].
  cbn [map List.length]. rewrite sum_cons, IH. lia.
Qed.

Lemma keyword_matches text keyword :
  Forall (eq keyword) (findall (keyword_pattern keyword) (lower text)).
Proof.
  apply Forall_forall. intros m Hm. apply findall_sound in Hm.
  destruct Hm as (before & rest & _ & Hm).
  apply denotes_keyword in Hm. symmetry. tauto.
Qed.

(** X1: the occurrences counted for a keyword do not overlap: the count times
    the length of the keyword is at most the length of the text. *)
Theorem count_times_length (text keyword : string) :
  count text keyword * String.length keyword <= String.length text.
Proof.
  unfold count, keyword_count.
  rewrite <- (sum_same_length (keyword_matches text keyword)).
  rewrite <- (length_lower text). apply findall_length.
Qed.

Lemma keyword_occurrence (text keyword : string) :
  0 < count text keyword ->
  exists before rest,
    lower text = (before ++ keyword ++ rest)%string
    /\ at_boundary (last_of None before) (keyword ++ rest)%string = true
    /\ at_boundary (last_of None (before ++ keyword)) rest = true.
Proof.
  unfold count, keyword_count. intros H.
  destruct (findall (keyword_pattern keyword) (lower text)) as [|m l] eqn:E;
    [simpl in H; lia|].
  assert (Hm : In m (findall (keyword_pattern keyword) (lower text)))
    by (rewrite E; now left).
  apply findall_sound in Hm. destruct Hm as (before & rest & Hs & Hm).
  apply denotes_keyword in Hm. destruct Hm as (-> & Hb1 & Hb2).
  exists before, rest. rewrite last_of_append. auto.
Qed.

(** X2: a keyword that is counted stands in the lower-cased text, between
    two word boundaries. *)
Theorem counted_keyword_occurs (text keyword : string) :
  0 < count text keyword ->
  exists before rest,
    lower text = (before ++ keyword ++ rest)%string
    /\ at_boundary (last_of None before) (keyword ++ rest)%string = true
    /\ at_boundary (last_of None (before ++ keyword)) rest = true.
Proof. apply keyword_occurrence. Qed.

Lemma counted_keyword_occurs_witness :
  0 < count "A class of students" "class"
  /\ exists before rest,
       lower "A class of students" = (before ++ "class" ++ rest)%string
       /\ at_boundary (last_of None before) ("class" ++ rest)%string = true
       /\ at_boundary (last_of None (before ++ "class")) rest = true.
Proof.
  split; [vm_compute; lia|].
  apply (@counted_keyword_occurs "A class of students" "class").
  vm_compute; lia.
Defined.

(** X3: a keyword with an upper-case letter is never counted, whatever the
    text: the text is matched in lower case and the keyword as written. *)
Theorem cased_keyword_never_counted (text keyword : string) :
  lower keyword <> keyword -> count text keyword = 0.
Proof.
  intros Hcase. destruct (count text keyword) as [|n] eqn:E; [reflexivity|].
  exfalso. apply Hcase.
  destruct (@keyword_occurrence text keyword) as (before & rest & Hs & _);
    [lia|].
  eapply lower_piece, Hs.
Qed.

Lemma cased_keyword_never_counted_witness :
  lower "McDonaldization" <> "McDonaldization"
  /\ count "The McDonaldization of society" "McDonaldization" = 0.
Proof.
  split; [discriminate|].
  apply (@cased_keyword_never_counted
           "The McDonaldization of society" "McDonaldization").
  discriminate.
Defined.

End KeywordFacts.

(** ** Methodology scores *)

Lemma dict_iadd_zero d k : dict_iadd d k 0 = d.
Proof.
  induction d as [|[k' v] d IH]; simpl; [reflexivity|].
  destruct (String.eqb k' k); [now rewrite Nat.add_0_r|now rewrite IH].
Qed.

Lemma dict_iadd_twice d k a b :
  dict_iadd (dict_iadd d k a) k b = dict_iadd d k (a + b).
Proof.
  induction d as [|[k' v] d IH]; simpl; [reflexivity|].
  destruct (String.eqb k' k) eqn:E; simpl; rewrite E.
  - now rewrite Nat.add_assoc.
  - now rewrite IH.
Qed.

Lemma dict_iadd_at pre k v n rest :
  ~ In k (keys pre) ->
  dict_iadd (pre ++ (k, v) :: rest) k n = pre ++ (k, v + n) :: rest.
Proof.
  induction pre as [|[k' v'] pre IH]; simpl; intros Hk.
  - now rewrite String.eqb_refl.
  - destruct (String.eqb_spec k' k) as [->|_]; [tauto|].
    rewrite IH; tauto.
Qed.

Lemma scores_of_keywords (f : string -> nat) k keywords :
  forall scores,
    fold_left (fun scores keyword => dict_iadd scores k (f keyword))
              keywords scores
    = dict_iadd scores k (sum (map f keywords)).
Proof.
  induction keywords as [|kw keywords IH]; intros scores; cbn [fold_left map].
  - symmetry. apply dict_iadd_zero.
  - rewrite IH, dict_iadd_twice, sum_cons. reflexivity.
Qed.

Lemma scores_of_categories (f : string -> nat) (ms : dict (list string)) :
  forall pre,
    NoDup (keys pre ++ keys ms) ->
    fold_left
      (fun scores '(method_type, keywords) =>
         fold_left
           (fun scores keyword => dict_iadd scores method_type (f keyword))
           keywords scores)
      ms (pre ++ map (fun kv => (fst kv, 0)) ms)
    = pre ++ map (fun kv => (fst kv, sum (map f (snd kv)))) ms.
Proof.
  induction ms as [|[k kws] ms IH]; intros pre Hnd; [reflexivity|].
  cbn [fold_left map fst snd]. rewrite scores_of_keywords.
  rewrite dict_iadd_at.
  - cbn [keys map fst] in Hnd.
    specialize (IH (pre ++ [(k, 0 + sum (map f kws))])).
    rewrite <- !app_assoc in IH. cbn [app] in IH. apply IH.
    rewrite keys_app, <- app_assoc. exact Hnd.
  - apply NoDup_remove_2 in Hnd. intros Hk; apply Hnd, in_or_app; now left.
Qed.

Lemma detect_methodology_sums (text : string) :
  detect_methodology text
  = map (fun kv => (fst kv, sum (map (count text) (snd kv)))) methodologies.
Proof.
  unfold detect_methodology. cbv zeta.
  change [("qualitative", 0); ("quantitative", 0); ("mixed_methods", 0)]
    with ([] ++ map (fun kv : string * list string => (fst kv, 0))
                    methodologies).
  assert (Hnd : NoDup (keys (@nil (string * nat)) ++ keys methodologies)).
  { assert (H : distinct (keys methodologies) = keys methodologies)
      by (vm_compute; reflexivity).
    change (NoDup (keys methodologies)).
    rewrite <- H. apply distinct_NoDup. }
  revert Hnd. generalize methodologies. intros ms Hnd.
  exact (scores_of_categories (count text) ms [] Hnd).
Qed.

(** X4: the score of a methodology is the sum of the counts of its
    keywords; the three scores come in the order of the taxonomy and no
    category adds to the score of another. *)
Theorem methodology_scores_are_sums (text : string) :
  detect_methodology text
  = map (fun kv => (fst kv, sum (map (count text) (snd kv)))) methodologies.
Proof. apply detect_methodology_sums. Qed.

(** ** Loops that fill a dictionary *)

Section Collect.
Variables X W : Type.
Variable name : X -> string.
Variable keep : X -> bool.
Variable value : X -> W.

(** A loop that sets [name x] to [value x] for the elements it keeps,
    over elements with different names, lists them in their order. *)
Lemma collect_fresh (xs : list X) :
  forall d : dict W,
    NoDup (keys d ++ map name xs) ->
    fold_left (fun d x => if keep x then dict_set d (name x) (value x) else d)
              xs d
    = d ++ map (fun x => (name x, value x)) (filter keep xs).
Proof.
  induction xs as [|x xs IH]; intros d Hnd; cbn [fold_left filter map].
  - now rewrite app_nil_r.
  - cbn [map] in Hnd. destruct (keep x).
    + rewrite dict_set_fresh.
      * rewrite IH; [cbn [map]; now rewrite <- app_assoc|].
        rewrite keys_app, <- app_assoc. exact Hnd.
      * apply NoDup_remove_2 in Hnd.
        intros Hk; apply Hnd, in_or_app; now left.
    + apply IH. now apply NoDup_remove_1 in Hnd.
Qed.
End Collect.

Lemma fold_left_same (A B : Type) (f g : A -> B -> A) (l : list B) :
  (forall a x, f a x = g a x) ->
  forall a, fold_left f l a = fold_left g l a.
Proof.
  intros Hfg. induction l as [|x l IH]; intros a; simpl; [reflexivity|].
  now rewrite Hfg, IH.
Qed.

(** ** Theories *)

Definition theory_count (text : string) (keywords : list string) : nat :=
  sum (map (count text) keywords).

Definition matched_keywords (text : string) (keywords : list string)
  : list string :=
  filter (fun keyword => 0 <? count text keyword) keywords.

Lemma count_and_terms (f : string -> nat) keywords :
  forall c0 (m0 : list string),
    fold_left
      (fun '(count, matched_terms) keyword =>
         let matches := f keyword in
         if 0 <? matches
         then (count + matches, matched_terms ++ [keyword])
         else (count, matched_terms))
      keywords (c0, m0)
    = (c0 + sum (map f keywords),
       m0 ++ filter (fun keyword => 0 <? f keyword) keywords).
Proof.
  induction keywords as [|kw keywords IH]; intros c0 m0;
    cbn [fold_left map filter].
  - unfold sum; simpl. now rewrite Nat.add_0_r, app_nil_r.
  - cbv zeta. rewrite sum_cons. destruct (0 <? f kw) eqn:E.
    + rewrite IH, <- app_assoc. f_equal. lia.
    + apply Nat.ltb_ge in E. rewrite IH. f_equal. lia.
Qed.

Lemma theories_NoDup : NoDup (keys theories).
Proof.
  assert (H : distinct (keys theories) = keys theories)
    by (vm_compute; reflexivity).
  rewrite <- H. apply distinct_NoDup.
Qed.

Lemma theories_matched_collected text :
  theories_matched text
  = map (fun kv => (fst kv, (theory_count text (snd kv),
                             matched_keywords text (snd kv))))
        (filter (fun kv => 0 <? theory_count text (snd kv)) theories).
Proof.
  unfold theories_matched. cbv zeta.
  generalize theories_NoDup. generalize theories. intros ts Hnd.
  rewrite <- (app_nil_l (map _ (filter _ ts))).
  rewrite <- (@collect_fresh _ _ (@fst string (list string))
                (fun kv => 0 <? theory_count text (snd kv))
                (fun kv => (theory_count text (snd kv),
                            matched_keywords text (snd kv)))
                ts [] Hnd).
  apply fold_left_same. intros found [theory_name keywords].
  rewrite (count_and_terms (keyword_count (lower text))). reflexivity.
Qed.

Lemma identify_theories_collected (order : SetOrder) (text : string) :
  identify_theories text
  = map (fun kv => (fst kv, (theory_count text (snd kv),
                             set_list (matched_keywords text (snd kv)))))
        (filter (fun kv => 0 <? theory_count text (snd kv)) theories).
Proof.
  rewrite identify_theories_matched, theories_matched_collected.
  generalize theories. intros ts.
  rewrite map_map. reflexivity.
Qed.

(** X6: [identify_theories] keeps the theories with a positive count, in
    the order of the taxonomy; the count of a theory is the sum of the
    counts of its keywords and its terms are the set of its keywords with
    a positive count. *)
Theorem theories_found_are_matched (order : SetOrder) (text : string) :
  identify_theories text
  = map (fun kv => (fst kv, (theory_count text (snd kv),
                             set_list (matched_keywords text (snd kv)))))
        (filter (fun kv => 0 <? theory_count text (snd kv)) theories).
Proof. apply identify_theories_collected. Qed.

Lemma sum_perm (l l' : list nat) : Permutation l l' -> sum l = sum l'.
Proof.
  induction 1 as [|x l l' _ IH|x y l|l l' l'' _ IH1 _ IH2].
  - reflexivity.
  - now rewrite !sum_cons, IH.
  - rewrite !sum_cons. lia.
  - now rewrite IH1.
Qed.

Lemma sum_of_positive (f : string -> nat) (l : list string) :
  sum (map f (filter (fun x => 0 <? f x) l)) = sum (map f l).
Proof.
  induction l as [|x l IH]; [reflexivity|].
  cbn [filter map]. destruct (0 <? f x) eqn:E.
  - cbn [map]. now rewrite !sum_cons, IH.
  - apply Nat.ltb_ge in E. rewrite sum_cons, IH. lia.
Qed.

Lemma map_same_at (A B : Type) (f g : A -> B) (l : list A) x :
  map f l = map g l -> In x l -> f x = g x.
Proof.
  induction l as [|y l IH]; simpl; [tauto|].
  intros [= Hy Hl] [->|Hx]; auto.
Qed.

Lemma theory_keywords_NoDup name keywords :
  In (name, keywords) theories -> NoDup keywords.
Proof.
  intros Hin.
  assert (H : map (fun kv => distinct (snd kv)) theories = map snd theories)
    by (vm_compute; reflexivity).
  apply (map_same_at _ _ _ (name, keywords) H) in Hin. simpl in Hin.
  rewrite <- Hin. apply distinct_NoDup.
Qed.

(** X7: every theory [identify_theories] reports is a theory of the taxonomy
    with a positive count; its terms are, without repetition, exactly
    those of its keywords that occur in the text, and its count is the sum
    of the counts of its terms. *)
Theorem theory_terms (order : SetOrder) (text : string) :
  Forall
    (fun found =>
       exists keywords,
         In (fst found, keywords) theories
         /\ 0 < fst (snd found)
         /\ NoDup (snd (snd found))
         /\ (forall keyword,
                In keyword (snd (snd found))
                <-> In keyword keywords /\ 0 < count text keyword)
         /\ fst (snd found) = sum (map (count text) (snd (snd found))))
    (identify_theories text).
Proof.
  rewrite identify_theories_collected.
  apply Forall_forall. intros found Hfound.
  apply in_map_iff in Hfound.
  destruct Hfound as ([name keywords] & <- & Hin).
  apply filter_In in Hin. destruct Hin as [Hin Hpos]. cbn [fst snd] in *.
  apply Nat.ltb_lt in Hpos.
  assert (Hperm : Permutation (set_list (matched_keywords text keywords))
                              (matched_keywords text keywords)).
  { rewrite set_list_perm. unfold distinct.
    rewrite nodup_fixed_point; [reflexivity|].
    apply NoDup_filter. eapply theory_keywords_NoDup, Hin. }
  exists keywords. repeat split; auto.
  - apply set_list_NoDup.
  - apply (Permutation_in _ Hperm) in H. apply filter_In in H. tauto.
  - apply (Permutation_in _ Hperm) in H. apply filter_In in H.
    apply Nat.ltb_lt. tauto.
  - intros [Hk Hc]. apply (Permutation_in _ (Permutation_sym Hperm)).
    apply filter_In. split; [exact Hk|now apply Nat.ltb_lt].
  - rewrite (sum_perm (Permutation_map (count text) Hperm)).
    unfold matched_keywords. now rewrite sum_of_positive.
Qed.

(** ** Research components *)

Definition component_count (text : string) (pattern : Re.regex) : nat :=
  List.length (Re.findall (Re.ignorecase pattern) text).

Lemma components_collected (text : string) :
  analyze_research_components text
  = map (fun kv => (fst kv, component_count text (snd kv)))
        (filter (fun kv => 0 <? component_count text (snd kv))
                research_patterns).
Proof.
  unfold analyze_research_components.
  assert (Hnd : NoDup (keys (@nil (string * nat))
                       ++ map (@fst string Re.regex) research_patterns)).
  { assert (H : distinct (keys research_patterns) = keys research_patterns)
      by (vm_compute; reflexivity).
    change (NoDup (keys research_patterns)).
    rewrite <- H. apply distinct_NoDup. }
  revert Hnd. generalize research_patterns. intros ps Hnd.
  rewrite <- (app_nil_l (map _ (filter _ ps))).
  rewrite <- (@collect_fresh _ _ (@fst string Re.regex)
                (fun kv => 0 <? component_count text (snd kv))
                (fun kv => component_count text (snd kv))
                ps [] Hnd).
  apply fold_left_same. intros components [component pattern]. reflexivity.
Qed.

(** X8: [analyze_research_components] reports the components whose
    pattern is found at least once, in the order the patterns are
    declared, each with the number of its matches. *)
Theorem components_found (text : string) :
  analyze_research_components text
  = map (fun kv => (fst kv, component_count text (snd kv)))
        (filter (fun kv => 0 <? component_count text (snd kv))
                research_patterns).
Proof. apply components_collected. Qed.

(** ** Keywords *)

(** Every character of [w] is in the class [p]. *)
Fixpoint string_forall (p : ascii -> bool) (w : string) : bool :=
  match w with
  | EmptyString => true
  | String c w' => p c && string_forall p w'
  end.

(** The count a [Counter] holds for [w], 0 when [w] is not a key. *)
Fixpoint tally (d : dict nat) (w : string) : nat :=
  match d with
  | [] => 0
  | (w', n) :: d' => if String.eqb w' w then n else tally d' w
  end.

Section KeywordRanking.
Import Re ReMeaning.

Lemma string_forall_append p a b :
  string_forall p (a ++ b) = string_forall p a && string_forall p b.
Proof.
  induction a as [|c a IH]; simpl; [reflexivity|].
  now rewrite IH, andb_assoc.
Qed.

Lemma denotes_rep_class p n :
  forall prev w rest,
    denotes (rep n (Cls p)) prev w rest ->
    String.length w = n /\ string_forall p w = true.
Proof.
  induction n as [|n IH]; intros prev w rest H; simpl in H.
  - inversion H; subst. auto.
  - inversion H as [| |r1 r2 prev' w1 w2 rest' H1 H2| | | | |]; subst.
    inversion H1 as [|p' prev' c rest' Hc| | | | | |]; subst.
    apply IH in H2. destruct H2 as [<- Hall].
    simpl. now rewrite Hc, Hall.
Qed.

Lemma denotes_star_class p prev w rest :
  denotes (Star (Cls p)) prev w rest -> string_forall p w = true.
Proof.
  intros H. remember (Star (Cls p)) as r eqn:Er.
  induction H as [| | | | | |r' prev w1 w2 rest H1 _ H2 IH2|];
    try discriminate; [reflexivity|].
  injection Er as ->.
  inversion H1 as [|p' prev' c rest' Hc| | | | | |]; subst.
  simpl. now rewrite Hc, IH2.
Qed.

(** A match of [\b[a-z]{4,}\b] is made of at least four letters [a-z]. *)
Lemma denotes_word prev w rest :
  denotes word_pattern prev w rest ->
  4 <= String.length w /\ string_forall Char.is_ascii_lower w = true.
Proof.
  unfold word_pattern, at_least, lower_az. cbn [seq]. intros H.
  inversion H as [| |r1 r2 prev1 w1 w2 rest1 H1 H2| | | | |]; subst.
  inversion H1 as [| | | | | | |prev2 rest2 Hb1]; subst.
  inversion H2 as [| |r1 r2 prev3 w3 w4 rest3 H3 H4| | | | |]; subst.
  inversion H4 as [| | | | | | |prev4 rest4 Hb2]; subst.
  inversion H3 as [| |r1 r2 prev5 w5 w6 rest5 H5 H6| | | | |]; subst.
  apply (@denotes_rep_class Char.is_ascii_lower 4) in H5.
  destruct H5 as [Hlen Hall].
  apply denotes_star_class in H6.
  cbn [append]. rewrite append_nil_r, length_append, string_forall_append.
  rewrite Hall, H6. split; [lia|reflexivity].
Qed.

Lemma words_found text w :
  In w (findall word_pattern (lower text)) ->
  4 <= String.length w /\ string_forall Char.is_ascii_lower w = true.
Proof.
  intros H. apply findall_sound in H.
  destruct H as (before & rest & _ & H). eapply denotes_word, H.
Qed.

Lemma tally_counter_incr d w w' :
  tally (counter_incr d w) w'
  = tally d w' + if String.eqb w w' then 1 else 0.
Proof.
  induction d as [|[v n] d IH]; simpl.
  - destruct (String.eqb w w'); reflexivity.
  - destruct (String.eqb_spec v w) as [->|Hvw]; simpl.
    + destruct (String.eqb w w'); lia.
    + destruct (String.eqb_spec v w') as [->|_]; [|exact IH].
      destruct (String.eqb_spec w w') as [->|_]; [tauto|lia].
Qed.

Lemma keys_counter_incr d w :
  keys (counter_incr d w) = if mem w (keys d) then keys d else keys d ++ [w].
Proof.
  unfold mem. induction d as [|[v n] d IH]; simpl; [reflexivity|].
  rewrite (String.eqb_sym w v).
  destruct (String.eqb v w); simpl; [reflexivity|].
  rewrite IH. now destruct (existsb (String.eqb w) (keys d)).
Qed.

Lemma mem_In w l : mem w l = true <-> In w l.
Proof.
  unfold mem. rewrite existsb_exists. split.
  - intros (x & Hx & E). apply String.eqb_eq in E. now subst.
  - intros H. exists w. split; [exact H|apply String.eqb_refl].
Qed.

Lemma counter_incr_NoDup d w :
  NoDup (keys d) -> NoDup (keys (counter_incr d w)).
Proof.
  intros H. rewrite keys_counter_incr.
  destruct (mem w (keys d)) eqn:E; [exact H|].
  apply NoDup_app; [exact H|repeat constructor; simpl; tauto|].
  intros x Hx [<-|[]].
  apply mem_In in Hx. congruence.
Qed.

Lemma tally_In d w n : NoDup (keys d) -> In (w, n) d -> tally d w = n.
Proof.
  induction d as [|[v m] d IH]; simpl; [tauto|].
  intros Hnd [[= -> ->]|Hin].
  - now rewrite String.eqb_refl.
  - inversion Hnd as [|? ? Hv Hd]; subst.
    destruct (String.eqb_spec v w) as [->|_]; [|now apply IH].
    exfalso. apply Hv. change w with (fst (w, n)). now apply in_map.
Qed.

Lemma Counter_from words :
  forall d,
    NoDup (keys d) ->
    let d' := fold_left counter_incr words d in
    NoDup (keys d')
    /\ forall w, tally d' w = tally d w + count_occ string_dec words w.
Proof.
  induction words as [|v words IH]; intros d Hnd; cbn [fold_left].
  - split; [exact Hnd|]. intros w. simpl. lia.
  - destruct (IH (counter_incr d v) (@counter_incr_NoDup d v Hnd)) as [H1 H2].
    split; [exact H1|]. intros w. rewrite H2, tally_counter_incr.
    simpl. destruct (string_dec v w) as [->|Hne].
    + rewrite String.eqb_refl. lia.
    + destruct (String.eqb_spec v w); [tauto|lia].
Qed.

Lemma Counter_NoDup words : NoDup (keys (Counter words)).
Proof. apply (Counter_from words []). constructor. Qed.

Lemma Counter_tally words w :
  tally (Counter words) w = count_occ string_dec words w.
Proof. apply (Counter_from words []). constructor. Qed.

Lemma Counter_entry words w n :
  In (w, n) (Counter words) -> n = count_occ string_dec words w.
Proof.
  intros H. rewrite <- Counter_tally. symmetry.
  apply tally_In; [apply Counter_NoDup|exact H].
Qed.

Lemma count_occ_filter (keep : string -> bool) (l : list string) w :
  keep w = true ->
  count_occ string_dec (filter keep l) w = count_occ string_dec l w.
Proof.
  intros Hw. induction l as [|x l IH]; [reflexivity|].
  cbn [filter]. destruct (keep x) eqn:E; simpl.
  - destruct (string_dec x w); now rewrite IH.
  - destruct (string_dec x w) as [->|_]; [congruence|exact IH].
Qed.

Lemma counter_incr_positive d w :
  Forall (fun e => 1 <= snd e) d ->
  Forall (fun e => 1 <= snd e) (counter_incr d w).
Proof.
  induction 1 as [|[v n] d Hn Hd IH]; simpl.
  - repeat constructor.
  - destruct (String.eqb v w); constructor; simpl in *; auto; lia.
Qed.

Lemma Counter_positive words : Forall (fun e => 1 <= snd e) (Counter words).
Proof.
  unfold Counter. generalize (Forall_nil (fun e : string * nat => 1 <= snd e)).
  generalize (@nil (string * nat)).
  induction words as [|w words IH]; intros d Hd; cbn [fold_left];
    [exact Hd|].
  apply IH. now apply counter_incr_positive.
Qed.

Lemma keyword_entries (text : string) (top_n : option nat) :
  Forall
    (fun kw =>
       4 <= String.length (fst kw)
       /\ string_forall Char.is_ascii_lower (fst kw) = true
       /\ mem (fst kw) stop_words = false
       /\ 1 <= snd kw
       /\ snd kw = count_occ string_dec
                     (findall word_pattern (lower text)) (fst kw))
    (extract_keywords text top_n).
Proof.
  unfold extract_keywords, most_common. cbv zeta.
  apply Forall_forall. intros [w n] Hin. apply firstn_incl in Hin.
  apply (Permutation_in _ (sorted_desc_perm snd _)) in Hin.
  pose proof (Counter_positive
                (filter (fun w => negb (mem w stop_words))
                        (findall word_pattern (lower text)))) as Hpos.
  rewrite Forall_forall in Hpos. specialize (Hpos _ Hin).
  apply Counter_entry in Hin. cbn [fst snd] in *.
  assert (Hw : In w (filter (fun w => negb (mem w stop_words))
                            (findall word_pattern (lower text)))).
  { apply (count_occ_In string_dec). lia. }
  apply filter_In in Hw. destruct Hw as [Hw Hstop].
  apply negb_true_iff in Hstop.
  destruct (words_found _ _ Hw) as [Hlen Hall].
  repeat split; auto.
  rewrite Hin. apply count_occ_filter. now rewrite Hstop.
Qed.

(** X11: every keyword [extract_keywords] returns is made of at least
    four letters [a-z], is no stop word, and comes with the number of
    times it is matched as a word of the lower-cased text, which is at
    least 1. *)
Theorem keywords_are_counted_words (text : string) (top_n : option nat) :
  Forall
    (fun kw =>
       4 <= String.length (fst kw)
       /\ string_forall Char.is_ascii_lower (fst kw) = true
       /\ mem (fst kw) stop_words = false
       /\ 1 <= snd kw
       /\ snd kw = count_occ string_dec
                     (findall word_pattern (lower text)) (fst kw))
    (extract_keywords text top_n).
Proof. apply keyword_entries. Qed.

(** X12: the keywords are pairwise different words and their counts never
    increase along the list. *)
Theorem keywords_ranked (text : string) (top_n : option nat) :
  NoDup (keys (extract_keywords text top_n))
  /\ StronglySorted (fun p q => snd q <= snd p) (extract_keywords text top_n).
Proof.
  unfold extract_keywords, most_common. cbv zeta. split.
  - unfold keys. rewrite <- firstn_map. apply firstn_NoDup.
    eapply Permutation_NoDup;
      [apply Permutation_map; symmetry; apply sorted_desc_perm|].
    apply Counter_NoDup.
  - set (ranked := sorted_desc snd _).
    assert (Hs : StronglySorted (fun p q : string * nat => snd q <= snd p)
                                ranked)
      by apply (sorted_desc_sorted snd).
    clearbody ranked. rewrite <- (firstn_skipn
      match top_n with Some n => n | None => 20 end ranked) in Hs.
    revert Hs. generalize (firstn match top_n with Some n => n | None => 20 end
                                  ranked).
    intros l. induction l as [|x l IH]; intros Hs; [constructor|].
    inversion Hs as [|? ? Hl Hx]; subst. constructor; [now apply IH|].
    apply Forall_app in Hx. tauto.
Qed.

End KeywordRanking.

(** ** The sizes of a summary *)

Section SummaryFacts.
Import Re ReMeaning.

Lemma length_snoc s c : String.length (snoc s c) = S (String.length s).
Proof. unfold snoc. rewrite length_append. simpl. lia. Qed.

Lemma split_whitespace_from_length s :
  forall word,
    2 * List.length (split_whitespace_from s word)
    <= String.length s + 1 + match word with EmptyString => 0 | _ => 1 end.
Proof.
  induction s as [|c s IH]; intros word; cbn [split_whitespace_from].
  - destruct word; simpl; lia.
  - cbn [String.length]. destruct (Char.is_space c).
    + destruct word as [|c' word'].
      * specialize (IH ""). simpl in IH. lia.
      * specialize (IH ""). cbn [List.length]. simpl in IH. lia.
    + specialize (IH (snoc word c)).
      destruct (snoc word c) eqn:E.
      * pose proof (length_snoc word c) as Hl. rewrite E in Hl. discriminate.
      * destruct word; lia.
Qed.

Lemma prefix_length sep s :
  String.prefix sep s = true -> String.length sep <= String.length s.
Proof.
  revert s; induction sep as [|c sep IH]; intros s H; simpl; [lia|].
  destruct s as [|c' s]; simpl in H; [discriminate|].
  destruct (ascii_dec c c'); [|discriminate].
  apply IH in H. simpl. lia.
Qed.

Lemma split_sep_from_length sep s :
  1 <= String.length sep ->
  forall skip piece,
    skip <= String.length s ->
    String.length sep * (List.length (split_sep_from sep s skip piece) - 1)
    + skip <= String.length s.
Proof.
  intros Hsep. induction s as [|c s IH]; intros skip piece Hskip.
  - simpl in *. lia.
  - cbn [split_sep_from]. cbn [String.length] in *.
    destruct skip as [|skip].
    + destruct (String.prefix sep (String c s)) eqn:E.
      * apply prefix_length in E. cbn [String.length] in E.
        specialize (IH (String.length sep - 1) "").
        pose proof (split_sep_from_nonempty sep s (String.length sep - 1) "")
          as Hne.
        cbn [List.length].
        destruct (List.length
                    (split_sep_from sep s (String.length sep - 1) ""))
          as [|n]; [lia|].
        replace (S (S n) - 1) with (S (S n - 1)) by lia.
        rewrite Nat.mul_succ_r. lia.
      * specialize (IH 0 (snoc piece c)). lia.
    + specialize (IH skip piece). lia.
Qed.

Lemma re_split_from_length r :
  forall s prev skip piece,
    skip <= String.length s ->
    sum (map String.length (re_split_from r prev s skip piece)) + skip
    <= String.length piece + String.length s.
Proof.
  induction s as [|c s IH]; intros prev skip piece Hskip.
  - simpl in *. unfold sum; simpl. lia.
  - cbn [re_split_from]. cbn [String.length] in *.
    assert (Hkeep :
              sum (map String.length
                       (re_split_from r (Some c) s 0 (snoc piece c))) + 0
              <= String.length piece + S (String.length s)).
    { specialize (IH (Some c) 0 (snoc piece c)).
      rewrite length_snoc in IH. lia. }
    destruct skip as [|skip].
    + destruct (match_here r prev (String c s)) as [[|c0 m]|] eqn:E;
        try exact Hkeep.
      apply match_here_sound in E. destruct E as (rest & Hs & _).
      injection Hs as _ Hs.
      assert (Hm : String.length m <= String.length s)
        by (rewrite Hs, length_append; lia).
      cbn [map]. rewrite sum_cons.
      specialize (IH (Some c) (String.length m) "" Hm). simpl in IH. lia.
    + specialize (IH (Some c) skip piece). lia.
Qed.

Lemma length_lstrip s : String.length (lstrip s) <= String.length s.
Proof.
  induction s as [|c s IH]; simpl; [lia|].
  destruct (Char.is_space c); simpl; lia.
Qed.

Lemma length_rstrip s : String.length (rstrip s) <= String.length s.
Proof.
  induction s as [|c s IH]; simpl; [lia|].
  destruct (rstrip s); [destruct (Char.is_space c)|]; simpl in *; lia.
Qed.

Lemma length_strip s : String.length (strip s) <= String.length s.
Proof.
  unfold strip. pose proof (length_rstrip (lstrip s)).
  pose proof (length_lstrip s). lia.
Qed.

Lemma long_pieces (keep : string -> bool) (l : list string) :
  (forall s, keep s = true -> 21 <= String.length s) ->
  21 * List.length (filter keep l) <= sum (map String.length l).
Proof.
  intros Hkeep. induction l as [|s l IH]; [unfold sum; simpl; lia|].
  cbn [filter map]. rewrite sum_cons.
  destruct (keep s) eqn:E; [apply Hkeep in E; cbn [List.length]|]; lia.
Qed.

(** X14: the counts of a summary against the length of the text: words are
    separated by whitespace, a sentence that is counted has more than 20
    characters, and a further paragraph takes a blank line. *)
Theorem summary_sizes (text : string) :
  let summary := generate_summary text in
  2 * word_count summary <= String.length text + 1
  /\ 21 * sentence_count summary <= String.length text
  /\ 2 * (paragraph_count summary - 1) <= String.length text.
Proof.
  cbn [generate_summary word_count sentence_count paragraph_count].
  repeat split.
  - pose proof (split_whitespace_from_length text ""). simpl in H.
    unfold split_whitespace. lia.
  - rewrite length_map.
    pose proof (@re_split_from_length sentence_end text None 0 ""
                  (Nat.le_0_l _)) as Hlen.
    pose proof (long_pieces (fun s => 20 <? String.length (strip s))
                  (re_split sentence_end text)) as Hlong.
    unfold re_split in *. simpl in Hlen.
    assert (forall s, (20 <? String.length (strip s)) = true ->
                      21 <= String.length s).
    { intros s Hs. apply Nat.ltb_lt in Hs.
      pose proof (length_strip s). lia. }
    specialize (Hlong H). lia.
  - pose proof (@split_sep_from_length blank_line text) as H.
    specialize (H (Nat.le_succ_diag_r 1) 0 "" (Nat.le_0_l _)).
    unfold split_sep. simpl in H. lia.
Qed.

End SummaryFacts.

(** ** Citations *)

Section CitationFacts.
Import Re ReMeaning.
Context {order : SetOrder}.

(** X15: the number of sample citations is exactly [min(10, unique_citations)],
    and with at most ten different citations every citation found is among
    the samples. *)
Theorem samples_cover (text : string) :
  let report := extract_citations text in
  List.length (sample_citations report)
  = Nat.min 10 (unique_citations report)
  /\ (unique_citations report <= 10 ->
      incl (all_citations text) (sample_citations report)).
Proof.
  cbn [extract_citations unique_citations sample_citations]. split.
  - now rewrite length_firstn, set_list_length.
  - intros Hle c Hc. rewrite firstn_all2.
    + now apply set_list_In.
    + now rewrite set_list_length.
Qed.

Lemma denotes_seq_tail a b rs :
  forall prev w rest,
    denotes (seq (rs ++ [a; b])) prev w rest ->
    exists w0 wa wb prev',
      w = (w0 ++ wa ++ wb)%string
      /\ denotes a prev' wa (wb ++ rest)%string
      /\ denotes b (last_of prev' wa) wb rest.
Proof.
  induction rs as [|r rs IH]; intros prev w rest H.
  - cbn [app seq] in H.
    inversion H as [| |r1 r2 prev' w1 w2 rest' H1 H2| | | | |]; subst.
    now exists "", w1, w2, prev.
  - assert (Hseq : seq ((r :: rs) ++ [a; b]) = Seq r (seq (rs ++ [a; b])))
      by (destruct rs; reflexivity).
    rewrite Hseq in H.
    inversion H as [| |r1 r2 prev' w1 w2 rest' H1 H2| | | | |]; subst.
    apply IH in H2. destruct H2 as (w0 & wa & wb & prev' & -> & Ha & Hb).
    exists (w1 ++ w0)%string, wa, wb, prev'.
    rewrite append_assoc. auto.
Qed.

Lemma denotes_year_paren prev w rest rs :
  denotes (seq (rs ++ [rep 4 digit; escape ")"])) prev w rest ->
  exists front year,
    w = (front ++ year ++ ")")%string
    /\ String.length year = 4
    /\ string_forall Char.is_digit year = true.
Proof.
  intros H. apply denotes_seq_tail in H.
  destruct H as (w0 & wa & wb & prev' & -> & Ha & Hb).
  apply (@denotes_rep_class Char.is_digit 4) in Ha.
  apply denotes_escape in Hb. subst wb.
  now exists w0, wa.
Qed.

Lemma citation_pattern_tail pattern :
  In pattern citation_patterns ->
  exists rs, pattern = seq (rs ++ [rep 4 digit; escape ")"]).
Proof.
  unfold citation_patterns. cbv zeta.
  intros [<-|[<-|[<-|[]]]].
  - eexists [_; _; _; _; _]. reflexivity.
  - eexists [_; _; _; _; _; _; _; _]. reflexivity.
  - eexists [_; _; _]. reflexivity.
Qed.

Lemma all_citations_found text c :
  In c (all_citations text) ->
  exists pattern, In pattern citation_patterns /\ In c (findall pattern text).
Proof.
  unfold all_citations.
  assert (Hgen : forall ps acc,
             In c (fold_left (fun acc pattern => acc ++ findall pattern text)
                             ps acc) ->
             In c acc
             \/ exists pattern, In pattern ps /\ In c (findall pattern text)).
  { induction ps as [|p ps IH]; intros acc H; cbn [fold_left] in H; [auto|].
    apply IH in H. destruct H as [H|(q & Hq & H)].
    - apply in_app_or in H. destruct H as [H|H]; [auto|].
      right. exists p. split; [now left|exact H].
    - right. exists q. split; [now right|exact H]. }
  intros H. apply Hgen in H. destruct H as [[]|H]. exact H.
Qed.

(** X16: every citation found stands in the text as it is reported and ends
    with a year of four digits and a closing parenthesis. *)
Theorem citations_are_pieces (text : string) :
  Forall
    (fun c =>
       (exists before rest, text = (before ++ c ++ rest)%string)
       /\ exists front year,
            c = (front ++ year ++ ")")%string
            /\ String.length year = 4
            /\ string_forall Char.is_digit year = true)
    (all_citations text).
Proof.
  apply Forall_forall. intros c Hc. apply all_citations_found in Hc.
  destruct Hc as (pattern & Hp & Hc).
  apply findall_sound in Hc. destruct Hc as (before & rest & Hs & Hc).
  split; [now exists before, rest|].
  apply citation_pattern_tail in Hp. destruct Hp as [rs ->].
  eapply denotes_year_paren, Hc.
Qed.

End CitationFacts.

Lemma samples_cover_witness :
  unique_citations
    (@extract_citations stored_order "Weber (1905) and Marx (1867) agree.")
  <= 10
  /\ incl (all_citations "Weber (1905) and Marx (1867) agree.")
          (sample_citations
             (@extract_citations stored_order
                "Weber (1905) and Marx (1867) agree.")).
Proof.
  split; [vm_compute; lia|].
  apply (proj2 (@samples_cover stored_order
                  "Weber (1905) and Marx (1867) agree.")).
  vm_compute; lia.
Defined.

(** ** The command line *)

Lemma index_found x l :
  forall i,
    index x l = Some i ->
    exists before rest,
      l = before ++ x :: rest /\ ~ In x before /\ List.length before = i.
Proof.
  induction l as [|y l IH]; intros i H; simpl in H; [discriminate|].
  destruct (String.eqb_spec y x) as [->|Hne].
  - injection H as <-. exists [], l. auto.
  - destruct (index x l) as [j|]; [|discriminate].
    injection H as <-.
    destruct (IH j eq_refl) as (before & rest & -> & Hx & <-).
    exists (y :: before), rest. simpl. repeat split; auto.
    intros [?|?]; auto.
Qed.

Lemma index_at x before rest :
  ~ In x before -> index x (before ++ x :: rest) = Some (List.length before).
Proof.
  induction before as [|y before IH]; simpl; intros Hx.
  - now rewrite String.eqb_refl.
  - destruct (String.eqb_spec y x) as [->|_]; [tauto|].
    rewrite IH; tauto.
Qed.

(** X17: the export file is the argument that follows the first "--export";
    there is none when "--export" is absent or is the last argument. *)
Theorem export_argument_follows_flag (argv : list string) (out : string) :
  export_argument argv = Some out <->
  exists before rest,
    argv = before ++ "--export" :: out :: rest /\ ~ In "--export" before.
Proof.
  unfold export_argument. split.
  - destruct (mem "--export" argv); [|discriminate].
    destruct (index "--export" argv) as [i|] eqn:E; [|discriminate].
    apply index_found in E. destruct E as (before & rest & -> & Hx & <-).
    destruct (_ <? _); [|discriminate].
    rewrite nth_error_app2 by lia.
    replace (List.length before + 1 - List.length before) with 1 by lia.
    destruct rest as [|out' rest]; [discriminate|].
    intros [= ->]. now exists before, rest.
  - intros (before & rest & -> & Hx).
    assert (Hmem : mem "--export" (before ++ "--export" :: out :: rest) = true).
    { apply mem_In, in_or_app. right. now left. }
    rewrite Hmem.
    assert (Hi : index "--export" (before ++ "--export" :: out :: rest)
                 = Some (List.length before)).
    { now apply index_at. }
    rewrite Hi.
    assert (Hlt : (List.length before + 1
                   <? List.length (before ++ "--export" :: out :: rest))
                  = true).
    { apply Nat.ltb_lt. rewrite length_app. simpl. lia. }
    rewrite Hlt. rewrite nth_error_app2 by lia.
    replace (List.length before + 1 - List.length before) with 1 by lia.
    reflexivity.
Qed.

(** ** A run of the program

    [print] writes a line to standard output through its encoding and
    raises [UnicodeEncodeError] on a character the encoding does not have.
    No [print] of [analyze], nor of the handlers of [read_file] and
    [export_results], stands inside a [try], so such an error ends the
    process with status 1.  The lines the program prints are made of
    ASCII characters (its own wording, numbers, taxonomy entries, keywords
    of letters [a-z]), which every output encoding is taken to have,
    except where they carry a path, a citation found in the text, or the
    text of an error of the file system. *)

Class Stdout : Type := { encodes : ascii -> bool }.

Definition can_print `{Stdout} (s : string) : bool := string_forall encodes s.

(** A call either returns or raises. *)
Inductive result (A : Type) : Type :=
| Return : A -> result A
| Raise : result A.

Arguments Raise {A}.

(** [analyze] with its output: the path is printed before the file is
    read; when the file cannot be read, [read_error] gives the text of the
    exception that [read_file] prints ([None] for [FileNotFoundError],
    whose line carries nothing but the path); the first five sample
    citations are printed in section 6. *)
Definition analyze_printing `{SetOrder} `{Stdout}
  (fs : string -> option string) (read_error : string -> option string)
  (now filepath : string) : result (option (Narrative * Report.t)) :=
  if can_print filepath
  then
    match read_file fs filepath with
    | None =>
        match read_error filepath with
        | Some e => if can_print e then Return None else Raise
        | None => Return None
        end
    | Some _ =>
        match analyze fs now filepath with
        | Some (narrative, report) =>
            if forallb can_print
                 (firstn 5 (sample_citations (Report.citations report)))
            then Return (Some (narrative, report))
            else Raise
        | None => Return None
        end
    end
  else Raise.

(** [export_results]: [can_write] tells whether the output file can be
    opened and written, and [write_error] gives the text of the exception
    when it cannot.  The result is the Boolean the method returns and the
    file it wrote, if any, as the path and the report whose JSON text the
    file holds.  When the line that names the written file cannot be
    printed, the error is caught, the file stays and the method returns
    [False].  A report is a dictionary with nine keys, so [if results]
    only tells a report from [None]. *)
Definition export_results `{Stdout} (can_write : string -> bool)
  (write_error : string -> string) (results : option Report.t)
  (output_file : string) : result (bool * option (string * Report.t)) :=
  match results with
  | Some report =>
      if can_write output_file
      then Return (can_print output_file, Some (output_file, report))
      else if can_print (write_error output_file)
           then Return (false, None)
           else Raise
  | None => Return (false, None)
  end.

(** What a run of [main] does: its exit status, the report it printed in
    full, and the file it wrote. *)
Record Outcome : Type := {
  exit_status : nat;
  printed : option Narrative;
  written : option (string * Report.t)
}.

(** [main]: with fewer than two arguments, the usage text and
    [sys.exit(1)]; otherwise the analysis of [sys.argv[1]], and the export
    when there is an export file that is not the empty string and the
    analysis returned a report.  An exception that is not caught ends the
    process with status 1. *)
Definition main `{SetOrder} `{Stdout} (fs : string -> option string)
  (read_error : string -> option string) (can_write : string -> bool)
  (write_error : string -> string) (now : string) (argv : list string)
  : Outcome :=
  match argv with
  | _ :: filepath :: _ =>
      let export_file := export_argument argv in
      match analyze_printing fs read_error now filepath with
      | Return results =>
          match export_file, results with
          | Some (String c f), Some (narrative, report) =>
              match export_results can_write write_error (Some report)
                      (String c f) with
              | Return (_, file) =>
                  {| exit_status := 0; printed := Some narrative;
                     written := file |}
              | Raise =>
                  {| exit_status := 1; printed := Some narrative;
                     written := None |}
              end
          | _, _ =>
              {| exit_status := 0; printed := option_map fst results;
                 written := None |}
          end
      | Raise => {| exit_status := 1; printed := None; written := None |}
      end
  | _ => {| exit_status := 1; printed := None; written := None |}
  end.

Lemma analyze_unreadable (order : SetOrder) fs now path :
  fs path = None -> analyze fs now path = None.
Proof. intros H. unfold analyze, read_file. now rewrite H. Qed.

(** Takes the hypotheses apart and closes the cases that contradict each
    other. *)
Ltac run_cases :=
  repeat match goal with
         | H : _ \/ _ |- _ => destruct H
         | H : _ /\ _ |- _ => destruct H
         | H : exists _, _ |- _ => destruct H
         end;
  try congruence; try lia.

Section Run.
Context {order : SetOrder} {stdout : Stdout}.
Variable fs : string -> option string.
Variable read_error : string -> option string.
Variable can_write : string -> bool.
Variable write_error : string -> string.
Variable now : string.

(** The citations section 6 prints. *)
Definition printed_citations (report : Report.t) : list string :=
  firstn 5 (sample_citations (Report.citations report)).

Lemma analyze_printing_returns path narrative report :
  analyze_printing fs read_error now path = Return (Some (narrative, report))
  <-> can_print path = true
      /\ analyze fs now path = Some (narrative, report)
      /\ forallb can_print (printed_citations report) = true.
Proof.
  unfold analyze_printing, read_file, printed_citations.
  destruct (can_print path); [|split; [discriminate|intros [? _]; discriminate]].
  destruct (fs path) as [text|] eqn:Efs.
  - destruct (analyze fs now path) as [[n r]|].
    + destruct (forallb can_print _) eqn:Ec.
      * split; [intros [= <- <-]; auto|intros (_ & [= <- <-] & _); reflexivity].
      * split; [discriminate|]. intros (_ & [= <- <-] & H). congruence.
    + split; [discriminate|intros (_ & ? & _); discriminate].
  - rewrite (@analyze_unreadable _ fs now path Efs).
    split; [|intros (_ & ? & _); discriminate].
    destruct (read_error path) as [e|]; [destruct (can_print e)|];
      discriminate.
Qed.

Lemma analyze_printing_raises path :
  analyze_printing fs read_error now path = Raise
  <-> can_print path = false
      \/ (fs path = None
          /\ exists e, read_error path = Some e /\ can_print e = false)
      \/ exists narrative report,
           analyze fs now path = Some (narrative, report)
           /\ forallb can_print (printed_citations report) = false.
Proof.
  unfold analyze_printing, read_file, printed_citations.
  destruct (can_print path); [|split; auto].
  destruct (fs path) as [text|] eqn:Efs.
  - destruct (analyze fs now path) as [[n r]|].
    + destruct (forallb can_print _) eqn:Ec.
      * split; [discriminate|].
        intros [?|[[? _]|(n' & r' & [= <- <-] & H)]]; congruence.
      * split; [|reflexivity]. intros _. right. right. now exists n, r.
    + split; [discriminate|].
      intros [?|[[? _]|(n' & r' & ? & _)]]; discriminate.
  - rewrite (@analyze_unreadable _ fs now path Efs).
    destruct (read_error path) as [e|] eqn:Ee.
    + destruct (can_print e) eqn:Ep.
      * split; [discriminate|].
        intros [?|[(_ & e' & [= <-] & ?)|(n' & r' & ? & _)]]; congruence.
      * split; [|reflexivity]. intros _. right. left.
        split; [reflexivity|]. now exists e.
    + split; [discriminate|].
      intros [?|[(_ & e' & ? & _)|(n' & r' & ? & _)]]; discriminate.
Qed.

(** X18: with fewer than two arguments [main] exits with status 1 and
    analyzes and writes nothing.  It writes a file exactly when the path
    and the printed citations can be printed, the analysis of
    [sys.argv[1]] returned a report, the export file is not the empty
    string and the file could be written; what it writes is that report.
    It exits with status 1 exactly when it has fewer than two arguments or
    a [print] raised: on the path, on the text of a read error, on a
    printed citation, or on the text of a write error. *)
Theorem main_outcome (argv : list string) :
  let outcome := main fs read_error can_write write_error now argv in
  (List.length argv < 2 ->
   exit_status outcome = 1
   /\ printed outcome = None /\ written outcome = None)
  /\ (forall out report,
         written outcome = Some (out, report) <->
         exists path narrative,
           nth_error argv 1 = Some path
           /\ can_print path = true
           /\ analyze fs now path = Some (narrative, report)
           /\ forallb can_print (printed_citations report) = true
           /\ export_argument argv = Some out
           /\ out <> ""
           /\ can_write out = true)
  /\ (exit_status outcome = 1 <->
      List.length argv < 2
      \/ exists path,
           nth_error argv 1 = Some path
           /\ (can_print path = false
               \/ (fs path = None
                   /\ exists e, read_error path = Some e
                                /\ can_print e = false)
               \/ exists narrative report,
                    analyze fs now path = Some (narrative, report)
                    /\ (forallb can_print (printed_citations report) = false
                        \/ exists out,
                             export_argument argv = Some out
                             /\ out <> ""
                             /\ can_write out = false
                             /\ can_print (write_error out) = false))).
Proof.
  cbv zeta. unfold main.
  destruct argv as [|prog [|path args]].
  - cbn. repeat split; auto; try discriminate.
    intros (path & narrative & H & _). discriminate.
  - cbn. split; [auto|]. split; [|split; [intros _; left; lia|reflexivity]].
    intros out report. split; [discriminate|].
    intros (path & narrative & H & _). discriminate.
  - cbn [List.length nth_error].
    pose proof (analyze_printing_raises path) as Hraise.
    destruct (analyze_printing fs read_error now path)
      as [[[narrative report]|]|] eqn:Ea.
    + (* the analysis returned a report *)
      apply analyze_printing_returns in Ea.
      destruct Ea as (Hpath & Han & Hcit).
      assert (Hfs : fs path <> None).
      { intros E. rewrite (@analyze_unreadable _ fs now path E) in Han.
        discriminate. }
      destruct (export_argument (prog :: path :: args)) as [[|c f]|] eqn:Ex;
        [| unfold export_results;
           destruct (can_write (String c f)) eqn:Ew;
           [|destruct (can_print (write_error (String c f))) eqn:Ee] |];
        cbn [exit_status printed written option_map fst].
      * split; [lia|]. split; [intros out r|]; split;
          try discriminate; intros H; exfalso; run_cases.
      * split; [lia|]. split; [intros out r|]; split;
          try discriminate.
        -- intros [= <- <-]. exists path, narrative.
           repeat split; auto. discriminate.
        -- intros (p & n & Hp & _ & Hr & _ & Ho & _).
           assert (r = report) by congruence.
           assert (out = String c f) by congruence. now subst.
        -- intros H; exfalso; run_cases.
      * split; [lia|]. split; [intros out r|]; split;
          try discriminate; intros H; exfalso; run_cases.
      * split; [lia|]. split; [intros out r|]; split;
          try discriminate; try reflexivity.
        -- intros H; exfalso; run_cases.
        -- intros _. right. exists path. split; [reflexivity|].
           right. right. exists narrative, report. split; [exact Han|].
           right. exists (String c f). repeat split; auto. discriminate.
      * split; [lia|]. split; [intros out r|]; split;
          try discriminate; intros H; exfalso; run_cases.
    + (* the analysis returned no report *)
      assert (Hnone : analyze fs now path = None).
      { destruct (analyze fs now path) as [[n r]|] eqn:Han; [|reflexivity].
        exfalso. destruct (forallb can_print (printed_citations r)) eqn:Ec.
        - assert (H : analyze_printing fs read_error now path
                      = Return (Some (n, r))).
          { apply analyze_printing_returns. repeat split; auto.
            destruct (can_print path) eqn:Ep; [reflexivity|].
            assert (@Return (option (Narrative * Report.t)) None = Raise)
              by (apply Hraise; now left).
            discriminate. }
          congruence.
        - assert (@Return (option (Narrative * Report.t)) None = Raise)
            by (apply Hraise; right; right; now exists n, r).
          discriminate. }
      assert (Hnot : ~ (can_print path = false
                        \/ (fs path = None
                            /\ exists e, read_error path = Some e
                                         /\ can_print e = false)
                        \/ exists narrative report,
                             analyze fs now path = Some (narrative, report)
                             /\ forallb can_print (printed_citations report)
                                = false)).
      { intros H. apply Hraise in H. discriminate. }
      destruct (export_argument (prog :: path :: args)) as [[|c f]|];
        cbn [exit_status printed written option_map].
      all: split; [lia|]; split; [intros out r|]; split;
        try discriminate.
      all: try (intros (p & n & Hp & _ & Hr & _); exfalso; congruence).
      all: intros [Hl|(p & Hp & Hc)]; [lia|]; exfalso.
      all: injection Hp as <-.
      all: destruct Hc as [Hc|[Hc|(n & r & Hr & _)]];
        [apply Hnot; now left|apply Hnot; right; now left|congruence].
    + (* a print of the analysis raised *)
      cbn [exit_status printed written].
      assert (Hwhy := proj1 Hraise eq_refl).
      split; [lia|]. split; [intros out r|]; split;
        try discriminate; try reflexivity.
      * intros (p & n & Hp & Hc & Hr & Hcs & _).
        assert (p = path) by congruence. subst p.
        destruct Hwhy as [?|[[Hfs _]|(n' & r' & Hr' & Hc')]];
          try congruence.
        rewrite (@analyze_unreadable _ fs now path Hfs) in Hr. discriminate.
      * intros _. right. exists path. split; [reflexivity|].
        destruct Hwhy as [?|[?|(n & r & Hr & Hc)]]; auto.
        right. right. exists n, r. auto.
Qed.

End Run.

Definition ascii_stdout : Stdout :=
  {| encodes := fun c => (Char.code c <? 128)%N |}.

Lemma main_outcome_witness :
  List.length ["analyzer"] < 2
  /\ exit_status
       (@main stored_order ascii_stdout (one_file "paper.txt" "a survey")
          (fun _ => None) (fun _ => true) (fun _ => "") "" ["analyzer"]) = 1
  /\ printed
       (@main stored_order ascii_stdout (one_file "paper.txt" "a survey")
          (fun _ => None) (fun _ => true) (fun _ => "") "" ["analyzer"]) = None
  /\ written
       (@main stored_order ascii_stdout (one_file "paper.txt" "a survey")
          (fun _ => None) (fun _ => true) (fun _ => "") "" ["analyzer"]) = None.
Proof.
  split; [simpl; lia|].
  apply (proj1 (@main_outcome stored_order ascii_stdout
                  (one_file "paper.txt" "a survey")
                  (fun _ => None) (fun _ => true) (fun _ => "") ""
                  ["analyzer"])).
  simpl; lia.
Defined.

(** A citation with a no-break space, on an output that has ASCII only:
    the run ends with status 1 and exports nothing, although the report
    exists and the file could be written. *)
Example unprintable_citation :
  let nbsp := String (ascii_of_nat 160) "" in
  let text := ("Weber" ++ nbsp ++ "(1905) wrote.")%string in
  let outcome :=
    @main stored_order ascii_stdout (one_file "paper.txt" text)
      (fun _ => None) (fun _ => true) (fun _ => "") ""
      ["analyzer"; "paper.txt"; "--export"; "out.json"] in
  exit_status outcome = 1 /\ written outcome = None
  /\ all_citations text = [("Weber" ++ nbsp ++ "(1905)")%string].
Proof. vm_compute. repeat split. Qed.

(** ** The case of the text *)

(** X10: two texts that differ only in the case of their letters get the same
    methodology scores, theories, concepts and keywords. *)
Theorem text_case_ignored (order : SetOrder) (text text' : string)
  (top_n : option nat) :
  lower text = lower text' ->
  detect_methodology text = detect_methodology text'
  /\ identify_theories text = identify_theories text'
  /\ extract_concepts text = extract_concepts text'
  /\ extract_keywords text top_n = extract_keywords text' top_n.
Proof.
  intros H.
  unfold detect_methodology, identify_theories, extract_concepts,
    concepts_found, extract_keywords.
  now rewrite H.
Qed.

Lemma text_case_ignored_witness :
  lower "A Survey of ANOMIE (Marx)" = lower "a survey of anomie (marx)"
  /\ detect_methodology "A Survey of ANOMIE (Marx)"
     = detect_methodology "a survey of anomie (marx)"
  /\ @identify_theories stored_order "A Survey of ANOMIE (Marx)"
     = @identify_theories stored_order "a survey of anomie (marx)"
  /\ extract_concepts "A Survey of ANOMIE (Marx)"
     = extract_concepts "a survey of anomie (marx)"
  /\ extract_keywords "A Survey of ANOMIE (Marx)" None
     = extract_keywords "a survey of anomie (marx)" None.
Proof.
  split; [reflexivity|].
  apply (@text_case_ignored stored_order "A Survey of ANOMIE (Marx)"
           "a survey of anomie (marx)" None).
  reflexivity.
Defined.

(** ** Ties between keywords *)

Section KeywordTies.
Import Re.

Lemma filter_split (A : Type) (keep : A -> bool) (l : list A) :
  forall x e y,
    filter keep l = x ++ e :: y ->
    exists a b, l = a ++ e :: b /\ filter keep a = x /\ filter keep b = y.
Proof.
  induction l as [|z l IH]; intros x e y H; cbn [filter] in H.
  - destruct x; discriminate.
  - destruct (keep z) eqn:E.
    + destruct x as [|x0 x].
      * injection H as -> H. exists [], l. auto.
      * injection H as -> H. apply IH in H.
        destruct H as (a & b & -> & <- & <-).
        exists (x0 :: a), b. cbn [filter]. rewrite E. auto.
    + apply IH in H. destruct H as (a & b & -> & <- & <-).
      exists (z :: a), b. cbn [filter]. rewrite E. auto.
Qed.

Lemma NoDup_app_apart (A : Type) (l l' : list A) x :
  NoDup (l ++ l') -> In x l -> ~ In x l'.
Proof.
  induction l as [|y l IH]; simpl; [tauto|].
  intros Hnd [->|Hx] Hx'.
  - apply NoDup_cons_iff in Hnd. apply (proj1 Hnd), in_or_app. now right.
  - apply NoDup_cons_iff in Hnd. now apply (IH (proj2 Hnd) Hx).
Qed.

(** The keys of a counter, as the loop builds them. *)
Definition note (ks : list string) (w : string) : list string :=
  if mem w ks then ks else ks ++ [w].

Lemma keys_Counter_from words :
  forall d, keys (fold_left counter_incr words d)
            = fold_left note words (keys d).
Proof.
  induction words as [|w words IH]; intros d; cbn [fold_left]; [reflexivity|].
  rewrite IH. f_equal. apply keys_counter_incr.
Qed.

Lemma noted_extends words :
  forall ks, exists new, fold_left note words ks = ks ++ new.
Proof.
  induction words as [|w words IH]; intros ks; cbn [fold_left].
  - exists []. now rewrite app_nil_r.
  - unfold note at 2. destruct (mem w ks); [apply IH|].
    destruct (IH (ks ++ [w])) as [new ->].
    exists (w :: new). now rewrite <- app_assoc.
Qed.

(** A word noted after [ks] stands in the list of words, and every word
    before its first occurrence is noted before it. *)
Lemma noted_in_order words :
  forall ks front w back,
    fold_left note words ks = ks ++ front ++ w :: back ->
    exists pre post, words = pre ++ w :: post /\ incl pre (ks ++ front).
Proof.
  induction words as [|v words IH]; intros ks front w back H;
    cbn [fold_left] in H.
  - rewrite <- (app_nil_r ks) in H at 1. apply app_inv_head in H.
    destruct front; discriminate.
  - unfold note in H at 2. destruct (mem v ks) eqn:E.
    + apply IH in H. destruct H as (pre & post & -> & Hpre).
      exists (v :: pre), post. split; [reflexivity|].
      intros x [<-|Hx]; [|now apply Hpre].
      apply in_or_app. left. now apply mem_In.
    + destruct (noted_extends words (ks ++ [v])) as [new Hnew].
      rewrite Hnew, <- app_assoc in H. apply app_inv_head in H.
      destruct front as [|a front]; cbn [app] in H; injection H as -> H.
      * exists [], words. split; [reflexivity|]. intros x [].
      * subst new.
        assert (Hfold : fold_left note words (ks ++ [a])
                        = (ks ++ [a]) ++ front ++ w :: back) by exact Hnew.
        apply IH in Hfold. destruct Hfold as (pre & post & -> & Hpre).
        exists (a :: pre), post. split; [reflexivity|].
        intros x [<-|Hx].
        -- apply in_or_app. right. now left.
        -- apply Hpre in Hx. rewrite <- app_assoc in Hx. exact Hx.
Qed.

(** X13: of two keywords with the same count, the one listed first is the one
    that appears first among the words of the text. *)
Theorem keyword_ties_by_first_appearance
  (text : string) (top_n : option nat) l1 w1 l2 w2 l3 (k : nat) :
  extract_keywords text top_n = l1 ++ (w1, k) :: l2 ++ (w2, k) :: l3 ->
  exists pre post,
    findall word_pattern (lower text) = pre ++ w1 :: post /\ ~ In w2 pre.
Proof.
  intros Hres.
  pose proof (keyword_entries text top_n) as Hkw.
  rewrite Hres, Forall_forall in Hkw.
  assert (Hstop : mem w2 stop_words = false).
  { apply (Hkw (w2, k)). apply in_or_app. right. right.
    apply in_or_app. right. now left. }
  clear Hkw. revert Hres.
  unfold extract_keywords, most_common. cbv zeta.
  set (words := findall word_pattern (lower text)).
  set (keep := fun w => negb (mem w stop_words)).
  set (n := match top_n with Some n => n | None => 20 end).
  intros Hres.
  (* the two entries stand in the full ranking *)
  assert (Hranked : exists l3',
             sorted_desc snd (Counter (filter keep words))
             = l1 ++ (w1, k) :: l2 ++ (w2, k) :: l3').
  { exists (l3 ++ skipn n (sorted_desc snd (Counter (filter keep words)))).
    rewrite <- (firstn_skipn n (sorted_desc snd _)) at 1.
    rewrite Hres, <- !app_assoc. cbn [app]. now rewrite <- !app_assoc. }
  destruct Hranked as [l3' Hranked].
  (* and, by stability, in the counter, in the same order *)
  pose proof (sorted_desc_stable snd k (Counter (filter keep words))) as Hst.
  rewrite Hranked in Hst.
  rewrite filter_app in Hst. cbn [filter snd] in Hst.
  rewrite Nat.eqb_refl, filter_app in Hst. cbn [filter snd] in Hst.
  rewrite Nat.eqb_refl in Hst. symmetry in Hst.
  apply filter_split in Hst. destruct Hst as (a & b & Hd & _ & Hb).
  apply filter_split in Hb. destruct Hb as (b1 & b2 & -> & _ & _).
  pose proof (Counter_NoDup (filter keep words)) as Hnd.
  pose proof (keys_Counter_from (filter keep words) []) as Hkeys.
  fold (Counter (filter keep words)) in Hkeys.
  rewrite Hd in Hkeys, Hnd. unfold keys in Hkeys, Hnd.
  rewrite map_app in Hkeys, Hnd. cbn [map fst] in Hkeys, Hnd.
  symmetry in Hkeys. apply (noted_in_order _ []) in Hkeys.
  destruct Hkeys as (pre & post & Htok & Hpre). cbn [app] in Hpre.
  apply filter_split in Htok. destruct Htok as (a' & b' & Hw & <- & _).
  exists a', b'. split; [exact Hw|].
  intros Hin.
  assert (Hin' : In w2 (filter keep a')).
  { apply filter_In. split; [exact Hin|]. unfold keep. now rewrite Hstop. }
  apply Hpre in Hin'.
  apply (@NoDup_app_apart _ _ _ _ Hnd Hin').
  right. rewrite map_app. apply in_or_app. right. now left.
Qed.

Lemma keyword_ties_by_first_appearance_witness :
  extract_keywords "Gamma beta, alpha; beta and ALPHA." None
  = [] ++ ("beta", 2) :: [] ++ ("alpha", 2) :: [("gamma", 1)]
  /\ exists pre post,
       findall word_pattern (lower "Gamma beta, alpha; beta and ALPHA.")
       = pre ++ "beta" :: post /\ ~ In "alpha" pre.
Proof.
  split; [reflexivity|].
  apply (@keyword_ties_by_first_appearance
           "Gamma beta, alpha; beta and ALPHA." None
           [] "beta" [] "alpha" [("gamma", 1)] 2).
  reflexivity.
Defined.

End KeywordTies.

(** ** The methodology section *)

Lemma sum_zero (l : list nat) : sum l = 0 -> Forall (fun n => n = 0) l.
Proof.
  induction l as [|n l IH]; [constructor|].
  rewrite sum_cons. intros H. constructor; [lia|apply IH; lia].
Qed.

Lemma sum_positive (l : list nat) : 0 < sum l -> Exists (fun n => 0 < n) l.
Proof.
  induction l as [|n l IH]; [unfold sum; simpl; lia|].
  rewrite sum_cons. intros H.
  destruct n as [|n]; [right; apply IH; lia|left; lia].
Qed.

Lemma Forall_map_iff (A B : Type) (f : A -> B) (P : B -> Prop) (l : list A) :
  Forall P (map f l) <-> Forall (fun x => P (f x)) l.
Proof. apply Forall_map. Qed.

Lemma Exists_map_iff (A B : Type) (f : A -> B) (P : B -> Prop) (l : list A) :
  Exists P (map f l) <-> Exists (fun x => P (f x)) l.
Proof. apply Exists_map. Qed.

(** X5: section 2 of the report says that no methodology was found exactly
    when no keyword of any methodology is counted in the text; otherwise
    it lists the three categories by non-increasing score. *)
Theorem methodology_section_of_text (text : string) :
  match methodology_section (detect_methodology text) with
  | NoClearIndicators =>
      Forall (fun kv => Forall (fun keyword => count text keyword = 0) (snd kv))
             methodologies
  | Mentions rows _ =>
      Permutation rows (detect_methodology text)
      /\ StronglySorted (fun p q => snd q <= snd p) rows
      /\ Exists (fun kv => Exists (fun keyword => 0 < count text keyword)
                                  (snd kv))
                methodologies
  end.
Proof.
  unfold methodology_section. cbv zeta.
  destruct (0 <? sum (map snd (detect_methodology text))) eqn:E.
  - split; [apply sorted_desc_perm|]. split; [apply (sorted_desc_sorted snd)|].
    apply Nat.ltb_lt in E. revert E.
    rewrite detect_methodology_sums, map_map. cbn [snd].
    generalize methodologies. intros ms E.
    apply sum_positive in E. apply (proj1 (Exists_map_iff _ _ _)) in E.
    eapply Exists_impl; [|exact E]. cbn beta.
    intros kv H. apply sum_positive in H.
    exact (proj1 (Exists_map_iff _ _ _) H).
  - apply Nat.ltb_ge in E. revert E.
    rewrite detect_methodology_sums, map_map. cbn [snd].
    generalize methodologies. intros ms E.
    assert (E0 : sum (map (fun kv => sum (map (count text) (snd kv))) ms) = 0)
      by lia.
    apply sum_zero in E0. apply (proj1 (Forall_map_iff _ _ _)) in E0.
    eapply Forall_impl; [|exact E0]. cbn beta.
    intros kv H. apply sum_zero in H.
    exact (proj1 (Forall_map_iff _ _ _) H).
Qed.

